(** * Mirror engine of the Minio client: work-item generation, scheduling,
      watch events and session handling.

    The development follows the three generations of the mirror code that
    the repository holds:
    - [Delta]  : [mirrorURLs], [isEmpty] and [deltaSourceTargets]
                 (the URL / work-item generator);
    - [Engine] : the watch-capable engine of [cmd/mirror-main.go]
                 ([doRemove], [doMirror], [startStatus], [watchMirror],
                 [startMirror]);
    - [Legacy] : the session-based engine of [mirror-main.go]
                 ([doMirror], [doMirrorFake], [doPrepareMirrorURLs],
                 [doMirrorSession]). *)

From Stdlib Require Import List Bool String ZArith Arith Lia.
Import ListNotations.
Local Open Scope string_scope.

(** ** Go runtime conventions shared by the three modules *)

(** A Go call either returns or panics (nil dereference, failed type
    assertion). *)
Inductive result (A : Type) : Type :=
| Ok (a : A)
| Panic.
Arguments Ok {A} a.
Arguments Panic {A}.

Definition isPanic {A} (r : result A) : bool :=
  match r with Ok _ => false | Panic => true end.

(** Sequential Go code over a mutable state [S]: a call returns a value or
    panics, and leaves the state it reached either way. *)
Definition GoM (S A : Type) : Type := S -> result A * S.

Definition ret {S A} (a : A) : GoM S A := fun s => (Ok a, s).

Definition bind {S A B} (m : GoM S A) (f : A -> GoM S B) : GoM S B :=
  fun s =>
    match m s with
    | (Ok a, s') => f a s'
    | (Panic, s') => (Panic, s')
    end.

Definition panic {S A} : GoM S A := fun s => (Panic, s).

Definition getState {S} : GoM S S := fun s => (Ok s, s).

(** Dereference of a pointer: [nil] panics. *)
Definition deref {S A} (p : option A) : GoM S A :=
  match p with Some a => ret a | None => panic end.

Notation "x <- m ;; k" := (bind m (fun x => k))
  (at level 61, m at next level, right associativity).
Notation "m ;;; k" := (bind m (fun _ => k))
  (at level 61, right associativity).

(** [int64] arithmetic wraps around. *)
Definition wrap64 (z : Z) : Z :=
  ((z + 2 ^ 63) mod 2 ^ 64 - 2 ^ 63)%Z.

Definition add64 (a b : Z) : Z := wrap64 (a + b).

(** [strings.HasSuffix] and [strings.TrimPrefix]. *)
Definition HasSuffix (s suffix : string) : bool :=
  let n := String.length s in
  let k := String.length suffix in
  (k <=? n)%nat && String.eqb (substring (n - k) k s) suffix.

Definition TrimPrefix (s p : string) : string :=
  if prefix p s
  then substring (String.length p) (String.length s - String.length p) s
  else s.

(** ** The probe error package

    [*probe.Error] is a pointer to an error object.  The wrapped Go error
    never changes.  [Trace] appends a trace point to the object in place and
    returns its receiver: the pointer an item holds is the same before and
    after the call, and the appended trace point is an effect, which the
    modules below record in their effect logs. *)
Module probe.

Inductive goError : Type :=
| InvalidTarget (url : string)
| OverwriteNotAllowed (url : string)
| NetOpError (msg : string)
| NetError (msg : string)
| APINotImplemented
| PathNotFound (path : string)
| OtherError (msg : string).

Record Error : Type := NewError { ToGoError : goError }.


End probe.

(** ** The work-item generator *)
Module Delta.

(** Modelled from the spec: the classification enumeration of the
    differencer (its declaration is not among the sources).  The names are
    the ones [deltaSourceTargets] uses; [differInFirst] is the remaining
    outcome, only-in-source. *)
Inductive differType : Type :=
| differInNone
| differInSize
| differInTime
| differInType
| differInFirst
| differInSecond.

Definition differType_eqb (a b : differType) : bool :=
  match a, b with
  | differInNone, differInNone
  | differInSize, differInSize
  | differInTime, differInTime
  | differInType, differInType
  | differInFirst, differInFirst
  | differInSecond, differInSecond => true
  | _, _ => false
  end.

(** [clientContent]: the fields the generator reads or writes, the URL in
    its string form. *)
Record clientContent : Type := mkContent {
  URL : string;
  Size : Z
}.

Record mirrorURLs : Type := mkMirrorURLs {
  SourceAlias : string;
  SourceContent : option clientContent;
  TargetAlias : string;
  TargetContent : option clientContent;
  Error : option probe.Error
}.

(** The composite literal [mirrorURLs{Error: e}]. *)
Definition errorURLs (e : probe.Error) : mirrorURLs :=
  mkMirrorURLs "" None "" None (Some e).

(** [isEmpty]: [m.SourceContent.Size] dereferences [SourceContent]; Go
    evaluates the operands of [&&] from the left, so the dereference happens
    whenever the first test fails. *)
Definition isEmpty (m : mirrorURLs) : result bool :=
  match SourceContent m, TargetContent m, Error m with
  | None, None, None => Ok true
  | _, _, _ =>
    match SourceContent m with
    | None => Panic
    | Some sc =>
      if (Size sc =? 0)%Z &&
         (match TargetContent m with None => true | Some _ => false end) &&
         (match Error m with None => true | Some _ => false end)
      then Ok true
      else Ok false
    end
  end.

(** One message of the differencer channel. *)
Record diffMessage : Type := mkDiff {
  err : option probe.Error;
  dType : differType;
  sourceURL : string;
  targetURL : string;
  sourceContent : option clientContent
}.

(** What [deltaSourceTargets] does that is visible outside: it sends an item
    on [mirrorURLsCh], or adds a trace point to an error. *)
Inductive output : Type :=
| Send (m : mirrorURLs)
| Traced (e : probe.Error) (fields : list string).

Definition errInvalidTarget (url : string) : probe.Error :=
  probe.NewError (probe.InvalidTarget url).

Definition errOverWriteNotAllowed (url : string) : probe.Error :=
  probe.NewError (probe.OverwriteNotAllowed url).

Section DeltaSourceTargets.

(** The URL helpers and the client constructor live outside the sources. *)
Variable Separator : string -> string.
Variable mustExpandAlias : string -> string * string.
Variable urlJoinPath : string -> string -> string.
Variable newClientFromAlias : string -> string -> option probe.Error.

Variables (isForce isFake isRemove : bool).

(** The body of the [for d := range differenceCh(...)] loop.  [sourceURL0]
    and [targetURL0] are the expanded URLs.  In the first test [&&] binds
    tighter than [||]. *)
Definition deltaEntry (sourceAlias sourceURL0 targetAlias targetURL0 : string)
    (d : diffMessage) : result (list output) :=
  match err d with
  | Some e =>
    Ok [Traced e [sourceURL0; targetURL0]; Send (errorURLs e)]
  | None =>
    let differ := dType d in
    if (isRemove && isForce && differType_eqb differ differInTime)
       || differType_eqb differ differInSize
    then Ok []
    else if isRemove && isForce && differType_eqb differ differInSecond
    then Ok []
    else if differType_eqb differ differInNone
            || differType_eqb differ differInSecond
    then Ok []
    else if differType_eqb differ differInType
    then Ok [Send (errorURLs (errInvalidTarget (targetURL d)))]
    else if differType_eqb differ differInSize && negb isForce && negb isFake
    then Ok [Send (errorURLs (errOverWriteNotAllowed (sourceURL d)))]
    else
      match sourceContent d with
      | None => Panic
      | Some sc =>
        let sourceSuffix := TrimPrefix (URL sc) sourceURL0 in
        let tc := mkContent (urlJoinPath targetURL0 sourceSuffix) 0 in
        Ok [Send (mkMirrorURLs sourceAlias (Some sc) targetAlias (Some tc) None)]
      end
  end.

(** The loop: the outputs in order, and whether the loop ran to its end
    ([false]: a panic cut it short). *)
Fixpoint deltaLoop (sourceAlias sourceURL0 targetAlias targetURL0 : string)
    (ds : list diffMessage) : list output * bool :=
  match ds with
  | [] => ([], true)
  | d :: rest =>
    match deltaEntry sourceAlias sourceURL0 targetAlias targetURL0 d with
    | Panic => ([], false)
    | Ok outs =>
      let '(more, fin) :=
        deltaLoop sourceAlias sourceURL0 targetAlias targetURL0 rest in
      ((outs ++ more)%list, fin)
    end
  end.

Definition withSeparator (u : string) : string :=
  let sep := Separator u in
  if HasSuffix u sep then u else u ++ sep.

(** [deltaSourceTargets]; [differenceCh] is the sequence the differencer
    delivers for the two clients. *)
Definition deltaSourceTargets (sourceURL1 targetURL1 : string)
    (differenceCh : list diffMessage) : list output * bool :=
  let sourceURL2 := withSeparator sourceURL1 in
  let targetURL2 := withSeparator targetURL1 in
  let '(sourceAlias, sourceURL0) := mustExpandAlias sourceURL2 in
  let '(targetAlias, targetURL0) := mustExpandAlias targetURL2 in
  match newClientFromAlias sourceAlias sourceURL0 with
  | Some e => ([Traced e [sourceAlias; sourceURL0]; Send (errorURLs e)], true)
  | None =>
    match newClientFromAlias targetAlias targetURL0 with
    | Some e => ([Traced e [targetAlias; targetURL0]; Send (errorURLs e)], true)
    | None => deltaLoop sourceAlias sourceURL0 targetAlias targetURL0 differenceCh
    end
  end.

(** The items sent on the channel. *)
Definition sent (outs : list output) : list mirrorURLs :=
  flat_map (fun o => match o with Send m => [m] | Traced _ _ => [] end) outs.

End DeltaSourceTargets.

(** A plain environment for concrete runs: [/] separated URLs without
    aliases, every client can be created. *)
Definition slash (_ : string) : string := "/".
Definition noAlias (u : string) : string * string := ("", u).
Definition joinPath (a b : string) : string := a ++ b.
Definition clientOk (_ _ : string) : option probe.Error := None.

(** An environment in which no client can be created. *)
Definition clientFails (_ _ : string) : option probe.Error :=
  Some (probe.NewError (probe.OtherError "no client")).

(** The two shapes of item the generator builds: an error alone, and a
    copy with both descriptors. *)
Definition isErrorOnly (m : mirrorURLs) : bool :=
  match SourceContent m, TargetContent m, Error m with
  | None, None, Some _ => true
  | _, _, _ => false
  end.

Definition isCopy (m : mirrorURLs) : bool :=
  match SourceContent m, TargetContent m, Error m with
  | Some _, Some _, None => true
  | _, _, _ => false
  end.

End Delta.

(** ** The watch-capable engine ([cmd/mirror-main.go]) *)
Module Engine.

Record clientURL : Type := mkURL { Path : string }.

Record clientContent : Type := mkContent {
  URL : clientURL;
  Size : Z
}.

(** Modelled from the spec: the work item [URLs] (source descriptor absent
    for delete-only items, target descriptor, running totals, optional
    error); its declaration and [WithError] are not among the sources. *)
Record URLs : Type := mkURLs {
  SourceAlias : string;
  SourceContent : option clientContent;
  TargetAlias : string;
  TargetContent : option clientContent;
  TotalCount : Z;
  TotalSize : Z;
  Error : option probe.Error
}.

Definition WithError (m : URLs) (e : option probe.Error) : URLs :=
  mkURLs (SourceAlias m) (SourceContent m) (TargetAlias m) (TargetContent m)
         (TotalCount m) (TotalSize m) e.

Definition withTotals (m : URLs) (count size : Z) : URLs :=
  mkURLs (SourceAlias m) (SourceContent m) (TargetAlias m) (TargetContent m)
         count size (Error m).

Record mirrorMessage : Type := mkMirrorMessage {
  msgSource : string;
  msgTarget : string;
  msgSize : Z;
  msgTotalCount : Z;
  msgTotalSize : Z
}.

Inductive message : Type :=
| MirrorMsg (m : mirrorMessage)
| RmMsg (key : string).

(** Everything the engine does outside its own variables, most recent
    first in the job's log. *)
Inductive effect : Type :=
| Stat (path : string)
| Remove (targetWithAlias : string)
| Upload (u : URLs)
| StatusSend (u : URLs)
| ErrorIf (e : probe.Error) (msg : string)
| PrintMsg (m : message)
| Traced (e : probe.Error) (fields : list string)
| SetCaption (caption : string)
| StatusAdd (n : Z)
| SetTotal (n : Z).

Inductive EventType : Type := EventCreate | EventRemove.

Record Event : Type := mkEvent {
  evPath : string;
  evType : EventType;
  evSize : Z
}.

(** The mutable part of [mirrorJob]. *)
Record mirrorJob : Type := mkJob {
  TotalObjects : Z;
  TotalBytes : Z;
  statusTotal : Z;
  watcherRunning : bool;
  log : list effect
}.

Definition M : Type -> Type := GoM mirrorJob.

Definition emit (e : effect) : M unit :=
  fun mj =>
    (Ok tt, mkJob (TotalObjects mj) (TotalBytes mj) (statusTotal mj)
                  (watcherRunning mj) (e :: log mj)).

Definition getJob : M mirrorJob := getState.

Definition setTotals (objects bytes : Z) : M unit :=
  fun mj =>
    (Ok tt, mkJob objects bytes (statusTotal mj) (watcherRunning mj) (log mj)).

Definition setStatusTotal (n : Z) : M unit :=
  fun mj =>
    (Ok tt, mkJob (TotalObjects mj) (TotalBytes mj) n (watcherRunning mj)
                  (SetTotal n :: log mj)).

Definition setWatcherRunning (b : bool) : M unit :=
  fun mj =>
    (Ok tt, mkJob (TotalObjects mj) (TotalBytes mj) (statusTotal mj) b (log mj)).

Inductive loopCtl : Type := Continue | Return.

Section MirrorJob.

(** The storage client and the URL helpers, outside the sources.  The
    answers of the storage service may depend on everything done so far. *)
Variable newClient : string -> option probe.Error.
Variable clientStat : list effect -> string -> probe.Error + clientContent.
Variable removeSingle : list effect -> string -> option probe.goError.
Variable uploadSourceToTargetURL : list effect -> URLs -> URLs.
Variable mustExpandAlias : string -> string * string.
Variable filepathAbs : string -> option string.
Variable filepathJoin : string -> string -> string.
Variable urlJoinPath : string -> string -> string.
Variable newClientURL : string -> clientURL.
Variable URLString : clientURL -> string.
Variable stringsReplace : string -> string -> string -> string.
Variable isFolderError : probe.Error -> bool.

(** [mj.context.Bool] of the three policy flags, and the two URLs. *)
Variables (isForce isFake isRemove : bool).
Variables (sourceURL targetURL : string).

Definition Trace (e : probe.Error) (fields : list string) : M probe.Error :=
  emit (Traced e fields) ;;; ret e.

Definition Stat_ (path : string) : M (probe.Error + clientContent) :=
  mj <- getJob ;;
  emit (Stat path) ;;;
  ret (clientStat (log mj) path).

(** [doRemove] *)
Definition doRemove (sURLs : URLs) : M URLs :=
  if isFake then ret (WithError sURLs None)
  else
    tc <- deref (TargetContent sURLs) ;;
    let targetWithAlias := filepathJoin (TargetAlias sURLs) (Path (URL tc)) in
    mj <- getJob ;;
    emit (Remove targetWithAlias) ;;;
    ret (WithError sURLs
           (option_map probe.NewError (removeSingle (log mj) targetWithAlias))).

(** [doMirror] *)
Definition doMirror (sURLs : URLs) : M URLs :=
  match Error sURLs with
  | Some e =>
    e' <- Trace e [] ;;
    ret (WithError sURLs (Some e'))
  | None =>
    if isFake then
      sc <- deref (SourceContent sURLs) ;;
      emit (StatusAdd (Size sc)) ;;;
      ret (WithError sURLs None)
    else
      sc <- deref (SourceContent sURLs) ;;
      tc <- deref (TargetContent sURLs) ;;
      emit (SetCaption (URLString (URL sc) ++ ": ")) ;;;
      emit (PrintMsg (MirrorMsg
        (mkMirrorMessage (filepathJoin (SourceAlias sURLs) (Path (URL sc)))
                         (filepathJoin (TargetAlias sURLs) (Path (URL tc)))
                         (Size sc) (TotalCount sURLs) (TotalSize sURLs)))) ;;;
      mj <- getJob ;;
      emit (Upload sURLs) ;;;
      ret (uploadSourceToTargetURL (log mj) sURLs)
  end.

(** The body of the loop of [startStatus], for one item received on
    [statusCh]. *)
Definition statusEntry (sURLs : URLs) : M unit :=
  match Error sURLs with
  | Some e =>
    match SourceContent sURLs with
    | Some sc =>
      e' <- Trace e [URLString (URL sc)] ;;
      emit (ErrorIf e' ("Failed to copy ‘" ++ URLString (URL sc) ++ "’."))
    | None =>
      tc <- deref (TargetContent sURLs) ;;
      e' <- Trace e [URLString (URL tc)] ;;
      emit (ErrorIf e' ("Failed to remove ‘" ++ URLString (URL tc) ++ "’."))
    end
  | None => ret tt
  end ;;;
  match SourceContent sURLs with
  | Some _ => ret tt
  | None =>
    match TargetContent sURLs with
    | Some tc =>
      emit (PrintMsg (RmMsg (filepathJoin (TargetAlias sURLs) (Path (URL tc)))))
    | None => ret tt
    end
  end.

Definition send (u : URLs) : M unit := emit (StatusSend u).

(** The statement [mj.statusCh <- mj.doMirror(sURLs)]. *)
Definition mirrorToStatus (sURLs : URLs) : M unit :=
  r <- doMirror sURLs ;;
  send r.

(** The tail shared by both [Create] branches of [watchMirror]:
    [shouldQueue || isForce] holds when it is reached. *)
Definition queueCopy (mirrorURL : URLs) (size : Z) : M unit :=
  mj <- getJob ;;
  let mirrorURL' := withTotals mirrorURL (TotalObjects mj) (TotalBytes mj) in
  setStatusTotal (add64 (statusTotal mj) size) ;;;
  mirrorToStatus mirrorURL'.

(** The paths [watchMirror] derives from an event: the expanded source
    URL (made absolute for a filesystem source), the event path with the
    alias put back, and the target path. *)
Definition sourceAlias : string := fst (mustExpandAlias sourceURL).

Definition sourceURLFull : string :=
  let sourceURLFull0 := snd (mustExpandAlias sourceURL) in
  if String.eqb sourceAlias ""
  then match filepathAbs sourceURLFull0 with
       | Some p => p
       | None => sourceURLFull0
       end
  else sourceURLFull0.

Definition aliasedPath (event : Event) : string :=
  stringsReplace (evPath event) sourceURLFull sourceURL.

Definition targetPath (event : Event) : string :=
  urlJoinPath targetURL (TrimPrefix (evPath event) sourceURLFull).

(** The item [watchMirror] builds for a [Create] event. *)
Definition createURLs (event : Event) : URLs :=
  mkURLs sourceAlias (Some (mkContent (newClientURL (evPath event)) 0))
         (fst (mustExpandAlias (targetPath event)))
         (Some (mkContent
                  (newClientURL (snd (mustExpandAlias (targetPath event)))) 0))
         0 0 None.

(** The body of the [event] case of [watchMirror]'s loop. *)
Definition watchEvent (event : Event) : M loopCtl :=
  let sourceURL' := newClientURL (evPath event) in
  let aliasedPath := aliasedPath event in
  let targetPath := targetPath event in
  let targetAlias := fst (mustExpandAlias targetPath) in
  let targetURL' := newClientURL (snd (mustExpandAlias targetPath)) in
  match evType event with
  | EventCreate =>
    let mirrorURL := createURLs event in
    if (evSize event =? 0)%Z then
      match newClient aliasedPath with
      | Some e => send (WithError mirrorURL (Some e)) ;;; ret Continue
      | None =>
        st <- Stat_ aliasedPath ;;
        match st with
        | inl e => send (WithError mirrorURL (Some e)) ;;; ret Continue
        | inr sourceContent =>
          match newClient targetPath with
          | Some e => send (WithError mirrorURL (Some e)) ;;; ret Return
          | None =>
            if negb isForce then
              tst <- Stat_ targetPath ;;
              match tst with
              | inr _ => ret Continue
              | inl _ =>
                queueCopy mirrorURL (Size sourceContent) ;;; ret Continue
              end
            else
              queueCopy mirrorURL (Size sourceContent) ;;; ret Continue
          end
        end
      end
    else
      let sized :=
        mkURLs sourceAlias (Some (mkContent sourceURL' (evSize event)))
               targetAlias (Some (mkContent targetURL' 0)) 0 0 None in
      if negb isForce then
        match newClient targetPath with
        | Some e => send (WithError mirrorURL (Some e)) ;;; ret Return
        | None =>
          tst <- Stat_ targetPath ;;
          match tst with
          | inr _ => ret Continue
          | inl _ => queueCopy sized (evSize event) ;;; ret Continue
          end
        end
      else
        queueCopy sized (evSize event) ;;; ret Continue
  | EventRemove =>
    mj <- getJob ;;
    let mirrorURL :=
      mkURLs sourceAlias None targetAlias (Some (mkContent targetURL' 0))
             (TotalObjects mj) (TotalBytes mj) None in
    if isRemove && isForce then
      r <- doRemove mirrorURL ;;
      send r ;;; ret Continue
    else ret Continue
  end.

(** What the two channels of the watcher deliver. *)
Inductive watchInput : Type :=
| OnEvent (event : Event)
| OnError (e : probe.Error)
| EventsClosed.

(** [watchMirror], over the sequence of inputs its [select] receives. *)
Fixpoint watchMirror (inputs : list watchInput) : M unit :=
  match inputs with
  | [] => ret tt
  | EventsClosed :: _ => ret tt
  | OnError e :: rest =>
    match probe.ToGoError e with
    | probe.APINotImplemented => setWatcherRunning false
    | _ =>
      emit (ErrorIf e "Unexpected error during monitoring.") ;;;
      watchMirror rest
    end
  | OnEvent event :: rest =>
    c <- watchEvent event ;;
    match c with
    | Continue => watchMirror rest
    | Return => ret tt
    end
  end.

(** The body of the [URLsCh] case of [startMirror]'s loop; [totalBytes] and
    [totalObjects] are the loop's local counters. *)
Definition startMirrorEntry (totals : Z * Z) (sURLs : URLs) : M (Z * Z) :=
  let '(totalBytes, totalObjects) := totals in
  match Error sURLs with
  | Some e =>
    e' <- Trace e [] ;;
    (if isFolderError e
     then emit (ErrorIf e' "Folder cannot be copied. Please use ‘...’ suffix.")
     else emit (ErrorIf e' "Unable to prepare URL for copying.")) ;;;
    ret totals
  | None =>
    let totalBytes' :=
      match SourceContent sURLs with
      | Some sc => add64 totalBytes (Size sc)
      | None => totalBytes
      end in
    let totalObjects' := add64 totalObjects 1 in
    setTotals totalObjects' totalBytes' ;;;
    setStatusTotal totalBytes' ;;;
    let sURLs' := withTotals sURLs totalObjects' totalBytes' in
    match SourceContent sURLs' with
    | Some _ => mirrorToStatus sURLs'
    | None =>
      match TargetContent sURLs' with
      | Some _ =>
        if isRemove && isForce
        then r <- doRemove sURLs' ;; send r
        else ret tt
      | None => ret tt
      end
    end ;;;
    ret (totalBytes', totalObjects')
  end.

(** [startMirror], over the items [URLsCh] delivers before it is closed. *)
Fixpoint startMirrorFrom (totals : Z * Z) (items : list URLs) : M unit :=
  match items with
  | [] => ret tt
  | sURLs :: rest =>
    totals' <- startMirrorEntry totals sURLs ;;
    startMirrorFrom totals' rest
  end.

Definition startMirror (items : list URLs) : M unit :=
  startMirrorFrom (0%Z, 0%Z) items.

(** The status goroutine, over the items sent on [statusCh]. *)
Fixpoint startStatus (items : list URLs) : M unit :=
  match items with
  | [] => ret tt
  | sURLs :: rest => statusEntry sURLs ;;; startStatus rest
  end.

End MirrorJob.

(** The items sent on [statusCh], oldest first. *)
Definition statusSent (l : list effect) : list URLs :=
  rev (flat_map (fun e => match e with StatusSend u => [u] | _ => [] end) l).

Definition isRemoveEffect (e : effect) : bool :=
  match e with Remove _ => true | _ => false end.

(** Get, put and remove against the storage service. *)
Definition isTransferIO (e : effect) : bool :=
  match e with Remove _ | Upload _ => true | _ => false end.

(** What the user sees as a failure. *)
Definition isUserError (e : effect) : bool :=
  match e with ErrorIf _ _ => true | _ => false end.

Definition emptyJob : mirrorJob := mkJob 0 0 0 true [].

Definition removes (l : list effect) : list effect := filter isRemoveEffect l.

Definition transfers (l : list effect) : list effect := filter isTransferIO l.

Definition userErrors (l : list effect) : list effect := filter isUserError l.

(** A computation that performs no remove operation. *)
Definition removeFree {A} (m : M A) : Prop :=
  forall mj, removes (log (snd (m mj))) = removes (log mj).

(** A plain environment for concrete runs: a filesystem source without
    alias, clients can always be created, uploads and removals succeed;
    [Stat] is left open. *)
Definition clientOk (_ : string) : option probe.Error := None.
Definition removeOk (_ : list effect) (_ : string) : option probe.goError := None.
Definition uploadOk (_ : list effect) (u : URLs) : URLs := u.
Definition noAlias (u : string) : string * string := ("", u).
Definition absSame (p : string) : option string := Some p.
Definition joinPath (a b : string) : string := a ++ b.
Definition replaceSame (s _ _ : string) : string := s.
Definition notFolder (_ : probe.Error) : bool := false.

(** [Stat] when nothing exists any more. *)
Definition statVanished (_ : list effect) (p : string)
    : probe.Error + clientContent :=
  inl (probe.NewError (probe.PathNotFound p)).

(** The watcher over some inputs, followed by the status goroutine over the
    items the watcher sent on [statusCh]. *)
Definition watchAndReport
    (clientStat : list effect -> string -> probe.Error + clientContent)
    (isForce isFake isRemove : bool) (sourceURL targetURL : string)
    (inputs : list watchInput) : mirrorJob :=
  let mj1 :=
    snd (watchMirror clientOk clientStat removeOk uploadOk noAlias absSame
           joinPath joinPath mkURL Path replaceSame
           isForce isFake isRemove sourceURL targetURL inputs emptyJob) in
  snd (startStatus joinPath Path (statusSent (log mj1)) mj1).

(** [Stat] when everything asked for exists. *)
Definition statExists (_ : list effect) (p : string)
    : probe.Error + clientContent :=
  inr (mkContent (mkURL p) 7).

(** A computation that adds no effect of the kind [P] to the log, and one
    that leaves a field of the job as it is. *)
Definition silent (P : effect -> bool) {A} (m : M A) : Prop :=
  forall mj, filter P (log (snd (m mj))) = filter P (log mj).

Definition keeps {T} (f : mirrorJob -> T) {A} (m : M A) : Prop :=
  forall mj, f (snd (m mj)) = f mj.

Definition hasError (u : URLs) : bool :=
  match Error u with Some _ => true | None => false end.

Definition isErrorOnly (u : URLs) : bool :=
  match SourceContent u, TargetContent u, Error u with
  | None, None, Some _ => true
  | _, _, _ => false
  end.

Definition isDeleteOnly (u : URLs) : bool :=
  match SourceContent u, TargetContent u with
  | None, Some _ => true
  | _, _ => false
  end.

Definition sourceSize (u : URLs) : Z :=
  match SourceContent u with Some sc => Size sc | None => 0%Z end.

(** The items [startMirror] counts, and their bytes. *)
Definition counted (items : list URLs) : list URLs :=
  filter (fun u => negb (hasError u)) items.

Definition bytesOf (items : list URLs) : Z :=
  fold_right (fun u acc => (sourceSize u + acc)%Z) 0%Z (counted items).

Definition isRmMsg (e : effect) : bool :=
  match e with PrintMsg (RmMsg _) => true | _ => false end.

Definition isStatusSend (e : effect) : bool :=
  match e with StatusSend _ => true | _ => false end.

Definition isAPINotImplemented (i : watchInput) : bool :=
  match i with
  | OnError e =>
    match probe.ToGoError e with probe.APINotImplemented => true | _ => false end
  | _ => false
  end.

(** The last statement of the loop body of [startMirror]: copy an item with
    a source, remove for an item with a target only when remove and force
    are set. *)
Definition mirrorOrRemove
    (removeSingle : list effect -> string -> option probe.goError)
    (uploadSourceToTargetURL : list effect -> URLs -> URLs)
    (filepathJoin : string -> string -> string)
    (URLString : clientURL -> string)
    (isForce isFake isRemove : bool) (sURLs : URLs) : M unit :=
  match SourceContent sURLs with
  | Some _ =>
    mirrorToStatus uploadSourceToTargetURL filepathJoin URLString isFake sURLs
  | None =>
    match TargetContent sURLs with
    | Some _ =>
      if isRemove && isForce
      then r <- doRemove removeSingle filepathJoin isFake sURLs ;; send r
      else ret tt
    | None => ret tt
    end
  end.

(** What the status goroutine shows for one item, most recent first: the
    failure, when the item carries an error, then the removal message, when
    the item has a target and no source. *)
Definition statusLines (filepathJoin : string -> string -> string)
    (URLString : clientURL -> string) (u : URLs) : list effect :=
  (match SourceContent u, TargetContent u with
   | None, Some tc =>
     [PrintMsg (RmMsg (filepathJoin (TargetAlias u) (Path (URL tc))))]
   | _, _ => []
   end ++
   match Error u with
   | Some e =>
     match SourceContent u, TargetContent u with
     | Some sc, _ =>
       [ErrorIf e ("Failed to copy ‘" ++ URLString (URL sc) ++ "’.");
        Traced e [URLString (URL sc)]]
     | None, Some tc =>
       [ErrorIf e ("Failed to remove ‘" ++ URLString (URL tc) ++ "’.");
        Traced e [URLString (URL tc)]]
     | None, None => []
     end
   | None => []
   end)%list.

(** What [startMirror] reports to the user for the items that carry an
    error, oldest first. *)
Definition reports (isFolderError : probe.Error -> bool) (items : list URLs)
    : list effect :=
  flat_map (fun u =>
              match Error u with
              | Some e =>
                [ErrorIf e (if isFolderError e
                            then "Folder cannot be copied. Please use ‘...’ suffix."
                            else "Unable to prepare URL for copying.")]
              | None => []
              end) items.



(** An item to copy that has no target. *)
Definition lacksTarget (u : URLs) : bool :=
  match Error u, SourceContent u, TargetContent u with
  | None, Some _, None => true
  | _, _, _ => false
  end.

End Engine.

(** ** The session-based engine ([mirror-main.go]) *)
Module Legacy.

Record content : Type := mkContent {
  Name : string;
  Size : Z
}.

Record mirrorURLs : Type := mkMirrorURLs {
  SourceContent : option content;
  TargetContents : list content;
  Error : option probe.Error
}.

Definition withError (m : mirrorURLs) (e : option probe.Error) : mirrorURLs :=
  mkMirrorURLs (SourceContent m) (TargetContents m) e.

(** The dynamic type behind the [interface{}] progress reader. *)
Inductive progressReader : Type :=
| barSend
| accounter.

Inductive effect : Type :=
| GetSource (name : string)
| PutTargets (targetURLs : list string) (length : Z)
| ReaderClose
| SetCaption (caption : string)
| ErrorGet (size : Z)
| ErrorPut (size : Z)
| Progress (size : Z)
| Prints (source : string) (targets : list string)
| StatusSend (m : mirrorURLs)
| QueueRelease
| WgDone
| Traced (e : probe.Error) (fields : list string)
| ErrorIf (e : probe.Error) (msg : string)
| Eraseline
| UpdateBar (name : string)
| Finish.

(** Get and put against the storage service. *)
Definition isTransferIO (e : effect) : bool :=
  match e with GetSource _ | PutTargets _ _ => true | _ => false end.

Definition isQueueRelease (e : effect) : bool :=
  match e with QueueRelease => true | _ => false end.

(** Effects of one goroutine, most recent first. *)
Definition M : Type -> Type := GoM (list effect).

Definition emit (e : effect) : M unit := fun l => (Ok tt, e :: l).

Definition Trace (e : probe.Error) (fields : list string) : M probe.Error :=
  emit (Traced e fields) ;;; ret e.

(** The type assertions of the progress reader to a bar and to an
    accounter; an assertion to the wrong type panics. *)
Definition assertBarSend (r : progressReader) : M unit :=
  match r with barSend => ret tt | accounter => panic end.

Definition assertAccounter (r : progressReader) : M unit :=
  match r with accounter => ret tt | barSend => panic end.

Section Globals.

Variables (globalQuietFlag globalJSONFlag globalDebugFlag : bool).

(** The storage calls of one [doMirror]: length and error of [getSource],
    error of [putTargets]. *)
Variable getSource : string -> Z * option probe.Error.
Variable putTargets : list string -> Z -> option probe.Error.

(** [doMirror] up to its deferred calls. *)
Definition doMirrorBody (sURLs : mirrorURLs) (reader : progressReader) : M unit :=
  match Error sURLs with
  | Some e =>
    e' <- Trace e [] ;;
    emit (StatusSend (withError sURLs (Some e')))
  | None =>
    (if negb globalQuietFlag && negb globalJSONFlag then
       assertBarSend reader ;;;
       sc <- deref (SourceContent sURLs) ;;
       emit (SetCaption (Name sc ++ ": "))
     else ret tt) ;;;
    sc <- deref (SourceContent sURLs) ;;
    emit (GetSource (Name sc)) ;;;
    let '(length, gerr) := getSource (Name sc) in
    match gerr with
    | Some e =>
      (if negb globalQuietFlag && negb globalJSONFlag
       then assertBarSend reader ;;; emit (ErrorGet length)
       else ret tt) ;;;
      e' <- Trace e [Name sc] ;;
      emit (StatusSend (withError sURLs (Some e')))
    | None =>
      let targetURLs := map Name (TargetContents sURLs) in
      (if globalQuietFlag || globalJSONFlag then
         emit (Prints (Name sc) targetURLs) ;;;
         assertAccounter reader
       else assertBarSend reader) ;;;
      emit (PutTargets targetURLs length) ;;;
      match putTargets targetURLs length with
      | Some e =>
        (if negb globalQuietFlag && negb globalJSONFlag
         then assertBarSend reader ;;; emit (ErrorPut length)
         else ret tt) ;;;
        e' <- Trace e targetURLs ;;
        emit (StatusSend (withError sURLs (Some e'))) ;;;
        emit ReaderClose
      | None =>
        emit (StatusSend (withError sURLs None)) ;;;
        emit ReaderClose
      end
    end
  end.

(** [doMirror]: the deferred calls run on every way out of the body, a
    panic included, last deferred first. *)
Definition doMirror (sURLs : mirrorURLs) (reader : progressReader) : M unit :=
  fun l =>
    let '(r, l') := doMirrorBody sURLs reader l in
    (r, WgDone :: QueueRelease :: l').

(** [doMirrorFake] *)
Definition doMirrorFake (sURLs : mirrorURLs) (reader : progressReader) : M unit :=
  if negb globalDebugFlag && negb globalJSONFlag then
    assertBarSend reader ;;;
    sc <- deref (SourceContent sURLs) ;;
    emit (Progress (Size sc))
  else ret tt.

(** The progress reader [doMirrorSession] sets up. *)
Definition newProgressReader : progressReader :=
  if negb globalQuietFlag && negb globalJSONFlag then barSend else accounter.

End Globals.

(** *** Sessions *)

Record sessionHeader : Type := mkHeader {
  CommandArgs : list string;
  TotalBytes : Z;
  TotalObjects : Z;
  LastCopied : string
}.

(** The header and the lines of the session data file. *)
Record sessionV2 : Type := mkSession {
  Header : sessionHeader;
  Data : list mirrorURLs
}.

Inductive status : Type :=
| Running
| Exited
| Panicked.

(** The process around a session: the session in memory, the session as
    persisted ([None]: no session file), whether the process still runs, and
    what it has shown so far. *)
Record process : Type := mkProcess {
  session : sessionV2;
  persisted : option sessionV2;
  state : status;
  shown : list effect
}.

Definition setSession (p : process) (s : sessionV2) : process :=
  mkProcess s (persisted p) (state p) (shown p).

Definition setState (p : process) (st : status) : process :=
  mkProcess (session p) (persisted p) st (shown p).

Definition show (e : effect) (p : process) : process :=
  mkProcess (session p) (persisted p) (state p) (e :: shown p).

(** Modelled from the spec: [session.Save] persists the session (marker and
    totals), [session.Delete] destroys it; neither is among the sources. *)
Definition Save (p : process) : process :=
  mkProcess (session p) (Some (session p)) (state p) (shown p).

Definition Delete (p : process) : process :=
  mkProcess (session p) None (state p) (shown p).



Definition setTotalsAndData (bytes objects : Z) (data : list mirrorURLs)
    (s : sessionV2) : sessionV2 :=
  mkSession (mkHeader (CommandArgs (Header s)) bytes objects
                      (LastCopied (Header s)))
            data.

(** Modelled from the spec: the closure [isCopiedFactory lastCopied]
    returns, not among the sources; it answers [true] for every entry up to
    and including the marker and [false] afterwards, and [false] throughout
    when there is no marker.  [copied] is the closure's variable. *)
Definition isCopied (lastCopied : string) (copied : bool) (name : string)
    : bool * bool :=
  if String.eqb lastCopied "" then (false, copied)
  else if copied
       then (true, negb (String.eqb lastCopied name))
       else (false, false).

(** What the two [select] loops receive. *)
Inductive prepareInput : Type :=
| FromURLsCh (sURLs : mirrorURLs)
| PrepareTrap.



Section Session.

Variables (globalQuietFlag globalJSONFlag : bool).
Variable isEmpty : mirrorURLs -> bool.
Variable marshalFails : mirrorURLs -> bool.
Variable HasData : sessionV2 -> bool.

Definition eraseline (p : process) : process :=
  if negb globalQuietFlag && negb globalJSONFlag then show Eraseline p else p.

(** The loop of [doPrepareMirrorURLs] and what follows it; the end of the
    inputs is the close of [URLsCh]. *)
Fixpoint prepareLoop (inputs : list prepareInput) (totalBytes totalObjects : Z)
    (dataFP : list mirrorURLs) (p : process) : process :=
  match inputs with
  | [] =>
    Save (setSession p
            (setTotalsAndData totalBytes totalObjects dataFP (session p)))
  | FromURLsCh sURLs :: rest =>
    match Error sURLs with
    | Some e =>
      let p1 := eraseline p in
      let p2 := show (ErrorIf e "Unable to prepare URLs for mirroring.")
                     (show (Traced e []) p1) in
      prepareLoop rest totalBytes totalObjects dataFP p2
    | None =>
      if isEmpty sURLs
      then prepareLoop rest totalBytes totalObjects dataFP p
      else if marshalFails sURLs
      then setState (Delete p) Exited
      else
        match SourceContent sURLs with
        | None => setState p Panicked
        | Some sc =>
          let p1 :=
            if negb globalQuietFlag && negb globalJSONFlag
            then show (UpdateBar (Name sc)) p else p in
          prepareLoop rest (add64 totalBytes (Size sc)) (add64 totalObjects 1)
                      (dataFP ++ [sURLs])%list p1
        end
    end
  | PrepareTrap :: _ =>
    setState (Delete (eraseline p)) Exited
  end.

Definition doPrepareMirrorURLs (inputs : list prepareInput) (p : process)
    : process :=
  prepareLoop inputs 0 0 [] p.




(** Inputs on which the preparation loop keeps running: items with an
    error, empty items, and items with a source that can be written to the
    data file. *)
Definition keepsPreparing (i : prepareInput) : bool :=
  match i with
  | FromURLsCh sURLs =>
    match Error sURLs with
    | Some _ => true
    | None =>
      isEmpty sURLs ||
      (negb (marshalFails sURLs) &&
       match SourceContent sURLs with Some _ => true | None => false end)
    end
  | PrepareTrap => false
  end.

End Session.

(** The scheduling loop of [doMirrorSession] over the lines of the data
    file, as the goroutine that runs it: an entry already copied goes to
    [doMirrorFake], any other takes a slot of [mirrorQueue] and gets a
    [doMirror] goroutine.  The result tells what became of each line; a
    panic (a line without a source, the type assertion of [doMirrorFake])
    ends the loop. *)
Section Dispatch.

Variables (globalQuietFlag globalJSONFlag globalDebugFlag : bool).
Variable lastCopied : string.


End Dispatch.

(** *** The admission gate *)

(** [int(math.Max(float64(runtime.NumCPU())-1, 1))], the capacity of
    [mirrorQueue]. *)
Definition mirrorQueueCap (numCPU : Z) : nat :=
  Z.to_nat (Z.max (numCPU - 1) 1).

(** The effects of one [doMirror] call in the order they happen. *)
Definition doMirrorTrace (quiet json : bool)
    (getSource : string -> Z * option probe.Error)
    (putTargets : list string -> Z -> option probe.Error)
    (sURLs : mirrorURLs) : list effect :=
  rev (snd (doMirror quiet json getSource putTargets sURLs
                     (newProgressReader quiet json) [])).

(** The scheduler between two steps: the lines not yet read, the closure
    variable of [isCopied], the number of values in [mirrorQueue], and for
    every [doMirror] goroutine the effects it still has to perform. *)
Record scheduler : Type := mkScheduler {
  pending : list mirrorURLs;
  copied : bool;
  mirrorQueue : nat;
  workers : list (list effect)
}.

Definition startScheduler (lines : list mirrorURLs) : scheduler :=
  mkScheduler lines true 0 [].

Section Scheduler.

Variables (globalQuietFlag globalJSONFlag globalDebugFlag : bool).
Variable numCPU : Z.
Variable lastCopied : string.

(** One step of the goroutines, interleaved in any order.  The loop goes
    past a line already copied when its [doMirrorFake] returns; a panic
    there, or on a line without a source, ends the program and is no step.
    The send [mirrorQueue <- true] is possible only below capacity; the
    deferred receive of a worker takes one value out. *)
Inductive step : scheduler -> scheduler -> Prop :=
| step_fake sURLs sc rest c q ws c' :
    SourceContent sURLs = Some sc ->
    isCopied lastCopied c (Name sc) = (true, c') ->
    fst (doMirrorFake globalJSONFlag globalDebugFlag sURLs
           (newProgressReader globalQuietFlag globalJSONFlag) []) = Ok tt ->
    step (mkScheduler (sURLs :: rest) c q ws) (mkScheduler rest c' q ws)
| step_spawn sURLs sc rest c q ws c' getSource putTargets :
    SourceContent sURLs = Some sc ->
    isCopied lastCopied c (Name sc) = (false, c') ->
    (q < mirrorQueueCap numCPU)%nat ->
    step (mkScheduler (sURLs :: rest) c q ws)
         (mkScheduler rest c' (S q)
            (doMirrorTrace globalQuietFlag globalJSONFlag
                           getSource putTargets sURLs :: ws))
| step_release pend c q ws1 w ws2 :
    step (mkScheduler pend c (S q) (ws1 ++ (QueueRelease :: w) :: ws2))
         (mkScheduler pend c q (ws1 ++ w :: ws2))
| step_effect pend c q ws1 e w ws2 :
    isQueueRelease e = false ->
    step (mkScheduler pend c q (ws1 ++ (e :: w) :: ws2))
         (mkScheduler pend c q (ws1 ++ w :: ws2)).

Inductive reachable (lines : list mirrorURLs) : scheduler -> Prop :=
| reach_start : reachable lines (startScheduler lines)
| reach_step s s' : reachable lines s -> step s s' -> reachable lines s'.

End Scheduler.

(** A worker is in flight while it still has storage I/O to perform. *)
Definition transferring (w : list effect) : bool := existsb isTransferIO w.

Definition inFlight (s : scheduler) : nat :=
  List.length (filter transferring (workers s)).

(** A worker holds a slot until its deferred receive. *)
Definition holdsSlot (w : list effect) : bool := existsb isQueueRelease w.

(** The receives from [mirrorQueue] a worker still has to perform. *)
Definition releases (w : list effect) : nat :=
  List.length (filter isQueueRelease w).

(** All storage I/O of a worker comes before its release: an I/O effect is
    followed by a release, and no I/O follows a release. *)
Fixpoint gated (w : list effect) : bool :=
  match w with
  | [] => true
  | e :: w' =>
    if isQueueRelease e then negb (transferring w')
    else if isTransferIO e then holdsSlot w' && gated w'
    else gated w'
  end.

(** The invariant of the admission gate: the values in [mirrorQueue] are the
    releases still to come, they do not exceed the capacity, and every
    worker does its I/O before its release. *)
Definition admitted (numCPU : Z) (s : scheduler) : Prop :=
  list_sum (map releases (workers s)) = mirrorQueue s /\
  (mirrorQueue s <= mirrorQueueCap numCPU)%nat /\
  Forall (fun w => gated w = true) (workers s).

(** A computation that does not receive from [mirrorQueue]. *)
Definition releaseFree {A} (m : M A) : Prop :=
  forall l, filter isQueueRelease (snd (m l)) = filter isQueueRelease l.

Definition transfers (l : list effect) : list effect := filter isTransferIO l.





(** A plain environment for concrete runs. *)
Definition sourceOk (_ : string) : Z * option probe.Error := (10%Z, None).
Definition targetsOk (_ : list string) (_ : Z) : option probe.Error := None.
Definition never (_ : mirrorURLs) : bool := false.

Definition file (name : string) (size : Z) : mirrorURLs :=
  mkMirrorURLs (Some (mkContent name size)) [mkContent ("dst/" ++ name) 0] None.

Definition freshProcess (args : list string) : process :=
  mkProcess (mkSession (mkHeader args 0 0 "") []) None Running [].

(** The items a goroutine sent on [statusCh], oldest first. *)
Definition statusSent (l : list effect) : list mirrorURLs :=
  rev (flat_map (fun e => match e with StatusSend u => [u] | _ => [] end) l).

Definition isPutTargets (e : effect) : bool :=
  match e with PutTargets _ _ => true | _ => false end.

(** The items the preparation loop writes to the data file: those without
    an error that are not empty. *)
Definition recorded (isEmpty : mirrorURLs -> bool) (inputs : list prepareInput)
    : list mirrorURLs :=
  flat_map (fun i =>
              match i with
              | FromURLsCh sURLs =>
                match Error sURLs with
                | Some _ => []
                | None => if isEmpty sURLs then [] else [sURLs]
                end
              | PrepareTrap => []
              end) inputs.

Definition sizeOf (sURLs : mirrorURLs) : Z :=
  match SourceContent sURLs with Some sc => Size sc | None => 0%Z end.

Definition totalSize (items : list mirrorURLs) : Z :=
  fold_right (fun u acc => (sizeOf u + acc)%Z) 0%Z items.

End Legacy.

(** ** The progress bar behind [barSend] *)
Module Bar.

Definition sub64 (a b : Z) : Z := wrap64 (a - b).
Definition mul64 (a b : Z) : Z := wrap64 (a * b).

(** [len]: the number of bytes of a string, an [int] (64 bits here). *)
Definition len (s : string) : Z := Z.of_nat (String.length s).

(** [strings.Repeat] for a count that is not negative. *)
Fixpoint Repeat (s : string) (count : nat) : string :=
  match count with
  | O => ""
  | S n => s ++ Repeat s n
  end.

(** [fixateBarCaption]; the slice [caption[trimSize:]] panics on a negative
    index. *)
Definition fixateBarCaption (caption : string) (width : Z) : result string :=
  if (len caption >? width)%Z then
    let trimSize := add64 (sub64 (len caption) width) 3 in
    if (trimSize <? len caption)%Z then
      if (trimSize <? 0)%Z then Panic
      else Ok ("..." ++ substring (Z.to_nat trimSize)
                                  (String.length caption - Z.to_nat trimSize)
                                  caption)
    else Ok caption
  else if (len caption <? width)%Z then
    Ok (caption ++ Repeat " " (Z.to_nat (sub64 width (len caption))))
  else Ok caption.

(** [getFixedWidth]: Go's integer division truncates toward zero. *)
Definition getFixedWidth (width percent : Z) : Z :=
  Z.quot (mul64 width percent) 100.

(** The messages [barSend] puts on [opCh], with their arguments. *)
Inductive barMsg : Type :=
| pbBarProgress (arg : Z)
| pbBarFinish
| pbBarPutError (arg : Z)
| pbBarGetError (arg : Z)
| pbBarSetCaption (arg : string).

(** The calls the goroutine of [newProgressBar] makes on the bar, and its
    send on [finishCh]. *)
Inductive barOp : Type :=
| Prefix (caption : string)
| Start
| Add64 (n : Z)
| Set64 (n : Z)
| BarFinish
| FinishSignal.

(** The two variables of the goroutine. *)
Record loopState : Type := mkLoop {
  started : bool;
  totalBytesRead : Z
}.

(** How the goroutine ended: [cmdCh] closed, finish message handled, or a
    panic. *)
Inductive ending : Type :=
| ChannelClosed
| Finished
| Crashed.

Section ProgressBar.

(** [bar.Total], set once by [pb.New64], and [bar.GetWidth], which depends
    on the terminal. *)
Variable total : Z.
Variable GetWidth : Z.

(** The loop of the goroutine of [newProgressBar]: the calls in the order
    they happen, the final variables, and how it ended. *)
Fixpoint barLoop (msgs : list barMsg) (st : loopState)
    : list barOp * loopState * ending :=
  match msgs with
  | [] => ([], st, ChannelClosed)
  | pbBarSetCaption c :: rest =>
    match fixateBarCaption c (getFixedWidth GetWidth 18) with
    | Panic => ([], st, Crashed)
    | Ok caption =>
      let '(ops, st', e) := barLoop rest st in
      (Prefix caption :: ops, st', e)
    end
  | pbBarProgress n :: rest =>
    let starts := (total >? 0)%Z && negb (started st) in
    let st1 := if starts then mkLoop true (totalBytesRead st) else st in
    let st2 := if (n >? 0)%Z
               then mkLoop (started st1) (add64 (totalBytesRead st1) n)
               else st1 in
    let '(ops, st', e) := barLoop rest st2 in
    ((if starts then [Start] else []) ++
     (if (n >? 0)%Z then [Add64 n] else []) ++ ops, st', e)%list
  | pbBarPutError n :: rest =>
    let '(ops, st', e) := barLoop rest st in
    ((if (totalBytesRead st >? n)%Z
      then [Set64 (sub64 (totalBytesRead st) n)] else []) ++ ops, st', e)%list
  | pbBarGetError n :: rest =>
    let '(ops, st', e) := barLoop rest st in
    ((if (n >? 0)%Z then [Add64 n] else []) ++ ops, st', e)%list
  | pbBarFinish :: _ =>
    ((if started st then [BarFinish] else []) ++ [FinishSignal], st, Finished)%list
  end.

End ProgressBar.

(** [barSend], the sender's side: [Progress] adds to [transferred] and puts
    a progress message on [opCh]. *)
Record barSend : Type := mkBarSend {
  barTotal : Z;
  transferred : Z
}.

Definition Progress (b : barSend) (progress : Z) : barSend * barMsg :=
  (mkBarSend (barTotal b) (add64 (transferred b) progress),
   pbBarProgress progress).

(** A reader wrapped by [NewProxyReader] reports every read. *)
Fixpoint reads (b : barSend) (ns : list Z) : barSend * list barMsg :=
  match ns with
  | [] => (b, [])
  | n :: rest =>
    let '(b1, m) := Progress b n in
    let '(b2, ms) := reads b1 rest in
    (b2, m :: ms)
  end.

Definition isStart (o : barOp) : bool :=
  match o with Start => true | _ => false end.

Definition isBarFinish (o : barOp) : bool :=
  match o with BarFinish => true | _ => false end.

Definition isProgressMsg (m : barMsg) : bool :=
  match m with pbBarProgress _ => true | _ => false end.

Definition inInt64 (z : Z) : Prop := (- 2 ^ 63 <= z < 2 ^ 63)%Z.

End Bar.

(** ** The global flags *)
Module Globals.

(** The global flags and the two switches of the console package that
    [setGlobals] turns on. *)
Record globals : Type := mkGlobals {
  globalQuiet : bool;
  globalDebug : bool;
  globalJSON : bool;
  globalNoColor : bool;
  globalInsecure : bool;
  DebugPrint : bool;
  colorOff : bool
}.

Record flags : Type := mkFlags {
  quiet : bool;
  debug : bool;
  json : bool;
  noColor : bool;
  insecure : bool
}.

(** [setGlobals] *)
Definition setGlobals (f : flags) (g : globals) : globals :=
  let q := globalQuiet g || quiet f in
  let d := globalDebug g || debug f in
  let j := globalJSON g || json f in
  let n := globalNoColor g || noColor f in
  let i := globalInsecure g || insecure f in
  mkGlobals q d j n i
            (if d then true else DebugPrint g)
            (if n then true else colorOff g).

(** Several commands, each calling [setGlobals] from its context. *)
Definition setAll (calls : list flags) (g : globals) : globals :=
  fold_left (fun g f => setGlobals f g) calls g.

End Globals.

(** * Properties *)

(** ** The work-item generator *)
Section DeltaProperties.

Import Delta.

Variable urlJoinPath : string -> string -> string.

Lemma differType_eqb_eq (a b : differType) :
  differType_eqb a b = true <-> a = b.
Proof.
  destruct a, b; simpl; split; intro H; try reflexivity; discriminate.
Qed.

(** Whatever the flags, an entry that differs in size leaves the loop body
    at its first test. *)
Lemma deltaEntry_differInSize isForce isFake isRemove sa su ta tu d :
  err d = None ->
  dType d = differInSize ->
  deltaEntry urlJoinPath isForce isFake isRemove sa su ta tu d = Ok [].
Proof.
  intros He Hd. unfold deltaEntry. rewrite He, Hd. simpl.
  rewrite orb_true_r. reflexivity.
Qed.

(** An identical entry is skipped. *)
Lemma deltaEntry_differInNone isForce isFake isRemove sa su ta tu d :
  err d = None ->
  dType d = differInNone ->
  deltaEntry urlJoinPath isForce isFake isRemove sa su ta tu d = Ok [].
Proof.
  intros He Hd. unfold deltaEntry. rewrite He, Hd. simpl.
  rewrite !andb_false_r. reflexivity.
Qed.

(** An entry that is only in the target emits nothing either. *)
Lemma deltaEntry_differInSecond isForce isFake isRemove sa su ta tu d :
  err d = None ->
  dType d = differInSecond ->
  deltaEntry urlJoinPath isForce isFake isRemove sa su ta tu d = Ok [].
Proof.
  intros He Hd. unfold deltaEntry. rewrite He, Hd. simpl.
  rewrite !andb_false_r. simpl.
  destruct (isRemove && isForce); reflexivity.
Qed.

(** An entry that differs in time only: skipped under remove and force,
    copied otherwise. *)
Lemma deltaEntry_differInTime isForce isFake isRemove sa su ta tu d sc :
  err d = None ->
  dType d = differInTime ->
  sourceContent d = Some sc ->
  deltaEntry urlJoinPath isForce isFake isRemove sa su ta tu d =
  if isRemove && isForce then Ok []
  else Ok [Send (mkMirrorURLs sa (Some sc) ta
                   (Some (mkContent (urlJoinPath tu (TrimPrefix (URL sc) su)) 0))
                   None)].
Proof.
  intros He Hd Hs. unfold deltaEntry. rewrite He, Hd, Hs. simpl.
  destruct (isRemove && isForce); reflexivity.
Qed.

Lemma sent_app (a b : list output) : sent (a ++ b) = (sent a ++ sent b)%list.
Proof. unfold sent. apply flat_map_app. Qed.

(** The walk over two stretches of entries: the second is reached when the
    first ran to its end. *)
Lemma deltaLoop_app isForce isFake isRemove sa su ta tu a b :
  deltaLoop urlJoinPath isForce isFake isRemove sa su ta tu (a ++ b) =
  let ra := deltaLoop urlJoinPath isForce isFake isRemove sa su ta tu a in
  let rb := deltaLoop urlJoinPath isForce isFake isRemove sa su ta tu b in
  if snd ra then ((fst ra ++ fst rb)%list, snd rb) else ra.
Proof.
  induction a as [| d a IH]; simpl.
  - destruct (deltaLoop urlJoinPath isForce isFake isRemove sa su ta tu b).
    reflexivity.
  - destruct (deltaEntry urlJoinPath isForce isFake isRemove sa su ta tu d)
      as [outs|]; [| reflexivity].
    rewrite IH. simpl.
    destruct (deltaLoop urlJoinPath isForce isFake isRemove sa su ta tu a)
      as [ma fa]. simpl.
    destruct fa; simpl; [| reflexivity].
    destruct (deltaLoop urlJoinPath isForce isFake isRemove sa su ta tu b)
      as [mb fb]. simpl. rewrite app_assoc. reflexivity.
Qed.

(** An entry in the middle of the walk: what the loop body does for it
    comes after the outputs of the entries before it and before those of
    the entries after it. *)
Lemma deltaLoop_entry isForce isFake isRemove sa su ta tu pre d post outs :
  snd (deltaLoop urlJoinPath isForce isFake isRemove sa su ta tu pre) = true ->
  deltaEntry urlJoinPath isForce isFake isRemove sa su ta tu d = Ok outs ->
  deltaLoop urlJoinPath isForce isFake isRemove sa su ta tu (pre ++ d :: post) =
  ((fst (deltaLoop urlJoinPath isForce isFake isRemove sa su ta tu pre) ++
    outs ++
    fst (deltaLoop urlJoinPath isForce isFake isRemove sa su ta tu post))%list,
   snd (deltaLoop urlJoinPath isForce isFake isRemove sa su ta tu post)).
Proof.
  intros Hpre Hd. rewrite deltaLoop_app. cbv zeta. rewrite Hpre.
  simpl. rewrite Hd.
  destruct (deltaLoop urlJoinPath isForce isFake isRemove sa su ta tu post)
    as [mp fp]. reflexivity.
Qed.

(** With both clients created, [deltaSourceTargets] is the walk over what
    the differencer delivers. *)
Lemma deltaSourceTargets_walks Separator mustExpandAlias newClientFromAlias
    isForce isFake isRemove sourceURL1 targetURL1 diffs :
  let s := mustExpandAlias (withSeparator Separator sourceURL1) in
  let t := mustExpandAlias (withSeparator Separator targetURL1) in
  newClientFromAlias (fst s) (snd s) = None ->
  newClientFromAlias (fst t) (snd t) = None ->
  deltaSourceTargets Separator mustExpandAlias urlJoinPath newClientFromAlias
    isForce isFake isRemove sourceURL1 targetURL1 diffs =
  deltaLoop urlJoinPath isForce isFake isRemove (fst s) (snd s) (fst t) (snd t)
    diffs.
Proof.
  intros s t. subst s t. unfold deltaSourceTargets.
  destruct (mustExpandAlias (withSeparator Separator sourceURL1)) as [sa su].
  destruct (mustExpandAlias (withSeparator Separator targetURL1)) as [ta tu].
  simpl. intros Hs Ht. rewrite Hs, Ht. reflexivity.
Qed.

(** An entry in the middle of what the differencer delivers. *)
Lemma deltaSourceTargets_entry Separator mustExpandAlias newClientFromAlias
    isForce isFake isRemove sourceURL1 targetURL1 pre d post outs :
  let s := mustExpandAlias (withSeparator Separator sourceURL1) in
  let t := mustExpandAlias (withSeparator Separator targetURL1) in
  let run := deltaSourceTargets Separator mustExpandAlias urlJoinPath
               newClientFromAlias isForce isFake isRemove
               sourceURL1 targetURL1 in
  newClientFromAlias (fst s) (snd s) = None ->
  newClientFromAlias (fst t) (snd t) = None ->
  snd (run pre) = true ->
  deltaEntry urlJoinPath isForce isFake isRemove (fst s) (snd s) (fst t) (snd t) d
  = Ok outs ->
  run (pre ++ d :: post)%list =
  ((fst (run pre) ++ outs ++ fst (run post))%list, snd (run post)).
Proof.
  intros s t run Hs Ht. subst run.
  rewrite !(deltaSourceTargets_walks Separator mustExpandAlias
              newClientFromAlias isForce isFake isRemove sourceURL1 targetURL1
              _ Hs Ht).
  apply deltaLoop_entry.
Qed.

End DeltaProperties.

(** An entry that is only in the source is sent on as a copy item whose
    target is the source suffix joined to the target URL. *)
Example deltaSourceTargets_only_in_source :
  Delta.deltaSourceTargets Delta.slash Delta.noAlias Delta.joinPath
    Delta.clientOk false false false "src" "dst"
    [Delta.mkDiff None Delta.differInFirst "src/a.txt" "dst/a.txt"
                  (Some (Delta.mkContent "src/a.txt" 10))] =
  ([Delta.Send (Delta.mkMirrorURLs "" (Some (Delta.mkContent "src/a.txt" 10))
                  "" (Some (Delta.mkContent "dst/a.txt" 0)) None)],
   true).
Proof. reflexivity. Qed.

(** C1, evaluated on the code: an entry that differs in size, with force,
    fake and remove all unset, makes [deltaSourceTargets] send nothing, not
    the overwrite-not-allowed error item; with force set it sends nothing
    either, not a copy item. *)
Theorem C1_differInSize_sends_nothing :
  let d := Delta.mkDiff None Delta.differInSize "src/a.txt" "dst/a.txt"
                        (Some (Delta.mkContent "src/a.txt" 10)) in
  Delta.deltaSourceTargets Delta.slash Delta.noAlias Delta.joinPath
    Delta.clientOk false false false "src" "dst" [d] = ([], true) /\
  Delta.deltaSourceTargets Delta.slash Delta.noAlias Delta.joinPath
    Delta.clientOk true false false "src" "dst" [d] = ([], true).
Proof. split; reflexivity. Qed.

(** C2 as stated fails: for an entry that differs in time only, with
    remove unset, the generator sends a copy item. *)
Lemma C2_time_only_is_copied :
  ~ (forall isForce isFake isRemove d,
        Delta.err d = None ->
        Delta.dType d = Delta.differInTime \/ Delta.dType d = Delta.differInNone ->
        Delta.sent
          (fst (Delta.deltaSourceTargets Delta.slash Delta.noAlias
                  Delta.joinPath Delta.clientOk isForce isFake isRemove
                  "src" "dst" [d])) = []).
Proof.
  intro H.
  specialize (H false false false
    (Delta.mkDiff None Delta.differInTime "src/a.txt" "dst/a.txt"
                  (Some (Delta.mkContent "src/a.txt" 10)))
    eq_refl (or_introl eq_refl)).
  vm_compute in H. discriminate H.
Qed.

(** C2, amended: for an identical entry the generator sends nothing, for
    every combination of force, fake and remove; for an entry that differs
    in time only it sends nothing when remove and force are both set, and a
    copy item of the entry's source otherwise.  The entry stands anywhere
    in what the differencer delivers to a generator that has its two
    clients and has walked the entries before it. *)
Theorem C2_identical_skipped_time_only_gated
    (Separator : string -> string)
    (mustExpandAlias : string -> string * string)
    (urlJoinPath : string -> string -> string)
    (newClientFromAlias : string -> string -> option probe.Error)
    (isForce isFake isRemove : bool) (sourceURL1 targetURL1 : string)
    (pre post : list Delta.diffMessage) (d : Delta.diffMessage) :
  let s := mustExpandAlias (Delta.withSeparator Separator sourceURL1) in
  let t := mustExpandAlias (Delta.withSeparator Separator targetURL1) in
  let run := Delta.deltaSourceTargets Separator mustExpandAlias urlJoinPath
               newClientFromAlias isForce isFake isRemove
               sourceURL1 targetURL1 in
  newClientFromAlias (fst s) (snd s) = None ->
  newClientFromAlias (fst t) (snd t) = None ->
  snd (run pre) = true ->
  Delta.err d = None ->
  (Delta.dType d = Delta.differInNone ->
   run (pre ++ d :: post)%list =
   ((fst (run pre) ++ fst (run post))%list, snd (run post))) /\
  (Delta.dType d = Delta.differInTime ->
   isRemove && isForce = true ->
   run (pre ++ d :: post)%list =
   ((fst (run pre) ++ fst (run post))%list, snd (run post))) /\
  (Delta.dType d = Delta.differInTime ->
   isRemove && isForce = false ->
   forall sc,
     Delta.sourceContent d = Some sc ->
     run (pre ++ d :: post)%list =
     ((fst (run pre) ++
       Delta.Send
         (Delta.mkMirrorURLs (fst s) (Some sc) (fst t)
            (Some (Delta.mkContent
                     (urlJoinPath (snd t) (TrimPrefix (Delta.URL sc) (snd s)))
                     0))
            None)
       :: fst (run post))%list,
      snd (run post))).
Proof.
  intros s t run Hs Ht Hpre He.
  split; [| split].
  - intro Hd.
    exact (deltaSourceTargets_entry urlJoinPath Separator mustExpandAlias
             newClientFromAlias isForce isFake isRemove sourceURL1 targetURL1
             pre d post [] Hs Ht Hpre
             (deltaEntry_differInNone urlJoinPath isForce isFake isRemove
                _ _ _ _ d He Hd)).
  - intros Hd Hrf.
    refine (deltaSourceTargets_entry urlJoinPath Separator mustExpandAlias
              newClientFromAlias isForce isFake isRemove sourceURL1 targetURL1
              pre d post [] Hs Ht Hpre _).
    unfold Delta.deltaEntry. rewrite He, Hd, Hrf. reflexivity.
  - intros Hd Hrf sc Hsc.
    refine (deltaSourceTargets_entry urlJoinPath Separator mustExpandAlias
              newClientFromAlias isForce isFake isRemove sourceURL1 targetURL1
              pre d post [_] Hs Ht Hpre _).
    rewrite (deltaEntry_differInTime urlJoinPath isForce isFake isRemove
               _ _ _ _ d sc He Hd Hsc).
    rewrite Hrf. reflexivity.
Qed.

Lemma C2_identical_skipped_time_only_gated_witness :
  let a := Delta.mkDiff None Delta.differInFirst "src/a.txt" "dst/a.txt"
                        (Some (Delta.mkContent "src/a.txt" 10)) in
  let same := Delta.mkDiff None Delta.differInNone "src/b.txt" "dst/b.txt" None in
  let sc := Delta.mkContent "src/c.txt" 30 in
  let later := Delta.mkDiff None Delta.differInTime "src/c.txt" "dst/c.txt"
                            (Some sc) in
  let copyOf name size :=
    Delta.mkMirrorURLs "" (Some (Delta.mkContent ("src/" ++ name) size)) ""
                       (Some (Delta.mkContent ("dst/" ++ name) 0)) None in
  let run isForce isRemove :=
    Delta.deltaSourceTargets Delta.slash Delta.noAlias Delta.joinPath
      Delta.clientOk isForce false isRemove "src" "dst" in
  Delta.sent (fst (run false false [a; same])) = [copyOf "a.txt" 10%Z] /\
  Delta.sent (fst (run true true [a; later])) = [copyOf "a.txt" 10%Z] /\
  Delta.sent (fst (run true false [a; later])) =
  [copyOf "a.txt" 10%Z; copyOf "c.txt" 30%Z].
Proof.
  intros a same sc later copyOf run.
  pose proof (C2_identical_skipped_time_only_gated Delta.slash Delta.noAlias
                Delta.joinPath Delta.clientOk false false false "src" "dst"
                [a] [] same eq_refl eq_refl eq_refl eq_refl) as (H1 & _ & _).
  pose proof (C2_identical_skipped_time_only_gated Delta.slash Delta.noAlias
                Delta.joinPath Delta.clientOk true false true "src" "dst"
                [a] [] later eq_refl eq_refl eq_refl eq_refl) as (_ & H2 & _).
  pose proof (C2_identical_skipped_time_only_gated Delta.slash Delta.noAlias
                Delta.joinPath Delta.clientOk true false false "src" "dst"
                [a] [] later eq_refl eq_refl eq_refl eq_refl) as (_ & _ & H3).
  specialize (H1 eq_refl). specialize (H2 eq_refl eq_refl).
  specialize (H3 eq_refl eq_refl sc eq_refl).
  split; [| split].
  - exact (f_equal (fun r => Delta.sent (fst r)) H1).
  - exact (f_equal (fun r => Delta.sent (fst r)) H2).
  - exact (f_equal (fun r => Delta.sent (fst r)) H3).
Defined.



(** C10: [isEmpty] returns without a nil dereference exactly when
    [SourceContent] is non-nil or all of [SourceContent], [TargetContent]
    and [Error] are nil; on a delete-only item and on an error-only item it
    dereferences the nil [SourceContent]. *)
Theorem C10_isEmpty_safe_iff :
  (forall m : Delta.mirrorURLs,
      isPanic (Delta.isEmpty m) = false <->
      (Delta.SourceContent m <> None \/
       (Delta.SourceContent m = None /\ Delta.TargetContent m = None /\
        Delta.Error m = None))) /\
  (forall sa ta tc,
      Delta.isEmpty (Delta.mkMirrorURLs sa None ta (Some tc) None) = Panic) /\
  (forall sa ta tc e,
      Delta.isEmpty (Delta.mkMirrorURLs sa None ta tc (Some e)) = Panic).
Proof.
  split; [| split].
  - intros [sa [sc|] ta tc e]; unfold Delta.isEmpty; simpl.
    + split; intro H.
      * left; discriminate.
      * destruct tc, e, (Delta.Size sc =? 0)%Z; reflexivity.
    + destruct tc as [tc|], e as [e|]; simpl; split; intro H;
        try discriminate;
        try (right; repeat split; reflexivity);
        try reflexivity;
        destruct H as [H | (_ & H1 & H2)];
        solve [ exfalso; apply H; reflexivity | discriminate ].
  - reflexivity.
  - intros sa ta [tc|] e; reflexivity.
Qed.

(** ** The watch-capable engine *)
Section EngineProperties.

Import Engine.

Variable newClient : string -> option probe.Error.
Variable clientStat : list effect -> string -> probe.Error + clientContent.
Variable removeSingle : list effect -> string -> option probe.goError.
Variable uploadSourceToTargetURL : list effect -> URLs -> URLs.
Variable mustExpandAlias : string -> string * string.
Variable filepathAbs : string -> option string.
Variable filepathJoin : string -> string -> string.
Variable urlJoinPath : string -> string -> string.
Variable newClientURL : string -> clientURL.
Variable URLString : clientURL -> string.
Variable stringsReplace : string -> string -> string -> string.
Variable isFolderError : probe.Error -> bool.
Variables (isForce isFake isRemove : bool).
Variables (sourceURL targetURL : string).

Lemma removeFree_ret {A} (a : A) : removeFree (ret a).
Proof. intro mj. reflexivity. Qed.

Lemma removeFree_panic {A} : removeFree (@panic mirrorJob A).
Proof. intro mj. reflexivity. Qed.

Lemma removeFree_bind {A B} (m : M A) (f : A -> M B) :
  removeFree m -> (forall a, removeFree (f a)) -> removeFree (bind m f).
Proof.
  intros Hm Hf mj. unfold bind.
  specialize (Hm mj). destruct (m mj) as [[a|] mj1]; simpl in *.
  - rewrite Hf. exact Hm.
  - exact Hm.
Qed.

Lemma removeFree_emit (e : effect) :
  isRemoveEffect e = false -> removeFree (emit e).
Proof. intros He mj. unfold removes. simpl. rewrite He. reflexivity. Qed.

Lemma removeFree_deref {A} (p : option A) : removeFree (deref p).
Proof. destruct p; [apply removeFree_ret | apply removeFree_panic]. Qed.

Lemma removeFree_getJob : removeFree getJob.
Proof. intro mj. reflexivity. Qed.

Lemma removeFree_setTotals a b : removeFree (setTotals a b).
Proof. intro mj. reflexivity. Qed.

Lemma removeFree_setStatusTotal n : removeFree (setStatusTotal n).
Proof. intro mj. reflexivity. Qed.

Lemma removeFree_setWatcherRunning b : removeFree (setWatcherRunning b).
Proof. intro mj. reflexivity. Qed.

Ltac remove_free_with known :=
  repeat first
    [ known
    | apply removeFree_ret
    | apply removeFree_panic
    | apply removeFree_getJob
    | apply removeFree_deref
    | apply removeFree_setTotals
    | apply removeFree_setStatusTotal
    | apply removeFree_setWatcherRunning
    | apply removeFree_emit; reflexivity
    | apply removeFree_bind; [ | intro ]
    | match goal with
      | |- removeFree (match ?x with _ => _ end) => destruct x
      end ].

Ltac remove_free := remove_free_with fail.

Lemma removeFree_Stat path : removeFree (Stat_ clientStat path).
Proof. unfold Stat_. remove_free. Qed.

(** [doMirror] never removes. *)
Lemma removeFree_doMirror sURLs :
  removeFree (doMirror uploadSourceToTargetURL filepathJoin URLString isFake sURLs).
Proof. unfold doMirror, Trace. remove_free. Qed.

(** A fake [doRemove] removes nothing. *)
Lemma removeFree_doRemove_fake sURLs :
  removeFree (doRemove removeSingle filepathJoin true sURLs).
Proof. unfold doRemove. remove_free. Qed.

Lemma removeFree_mirrorToStatus sURLs :
  removeFree (mirrorToStatus uploadSourceToTargetURL filepathJoin URLString
                isFake sURLs).
Proof.
  unfold mirrorToStatus, send. apply removeFree_bind.
  - apply removeFree_doMirror.
  - intro r. apply removeFree_emit. reflexivity.
Qed.

Lemma removeFree_queueCopy u size :
  removeFree (queueCopy uploadSourceToTargetURL filepathJoin URLString isFake u size).
Proof.
  unfold queueCopy. apply removeFree_bind; [apply removeFree_getJob | intro mj].
  apply removeFree_bind; [apply removeFree_setStatusTotal | intros _].
  apply removeFree_mirrorToStatus.
Qed.

Lemma removeFree_watchEvent event :
  isRemove && isForce = false ->
  removeFree (watchEvent newClient clientStat removeSingle
                uploadSourceToTargetURL mustExpandAlias filepathAbs filepathJoin
                urlJoinPath newClientURL URLString stringsReplace
                isForce isFake isRemove sourceURL targetURL event).
Proof.
  intro Hflags. unfold watchEvent, send. rewrite Hflags.
  remove_free_with
    ltac:(first [ apply removeFree_Stat | apply removeFree_queueCopy ]).
Qed.

Lemma removeFree_watchMirror inputs :
  isRemove && isForce = false ->
  removeFree (watchMirror newClient clientStat removeSingle
                uploadSourceToTargetURL mustExpandAlias filepathAbs filepathJoin
                urlJoinPath newClientURL URLString stringsReplace
                isForce isFake isRemove sourceURL targetURL inputs).
Proof.
  intro Hflags. induction inputs as [| i rest IH]; simpl.
  - apply removeFree_ret.
  - destruct i as [event | e |].
    + apply removeFree_bind.
      * apply removeFree_watchEvent. exact Hflags.
      * intros [|]; [exact IH | apply removeFree_ret].
    + destruct (probe.ToGoError e);
        try (apply removeFree_bind;
             [apply removeFree_emit; reflexivity | intro; exact IH]).
      apply removeFree_setWatcherRunning.
    + apply removeFree_ret.
Qed.

Lemma removeFree_startMirrorEntry totals sURLs :
  isRemove && isForce = false ->
  removeFree (startMirrorEntry removeSingle uploadSourceToTargetURL filepathJoin
                URLString isFolderError isForce isFake isRemove totals sURLs).
Proof.
  intro Hflags. unfold startMirrorEntry, send, Trace. destruct totals as [tb to].
  rewrite Hflags. simpl.
  remove_free_with ltac:(apply removeFree_mirrorToStatus).
Qed.

Lemma removeFree_startMirrorFrom items :
  isRemove && isForce = false ->
  forall totals,
  removeFree (startMirrorFrom removeSingle uploadSourceToTargetURL filepathJoin
                URLString isFolderError isForce isFake isRemove totals items).
Proof.
  intro Hflags. induction items as [| u rest IH]; intro totals; simpl.
  - apply removeFree_ret.
  - apply removeFree_bind.
    + apply removeFree_startMirrorEntry. exact Hflags.
    + intro totals'. apply IH.
Qed.

(** C4: unless remove and force are both set, neither [startMirror], over
    any items (an only-in-target item among them), nor [watchMirror], over
    any events (a [Remove] event among them), performs a remove operation
    on the target. *)
Theorem C4_remove_only_with_remove_and_force :
  isRemove && isForce = false ->
  (forall items mj,
      removes (log (snd (startMirror removeSingle uploadSourceToTargetURL
                           filepathJoin URLString isFolderError
                           isForce isFake isRemove items mj))) =
      removes (log mj)) /\
  (forall inputs mj,
      removes (log (snd (watchMirror newClient clientStat removeSingle
                           uploadSourceToTargetURL mustExpandAlias filepathAbs
                           filepathJoin urlJoinPath newClientURL URLString
                           stringsReplace isForce isFake isRemove
                           sourceURL targetURL inputs mj))) =
      removes (log mj)).
Proof.
  intro Hflags. split.
  - intros items mj. unfold startMirror.
    apply removeFree_startMirrorFrom. exact Hflags.
  - intros inputs mj. apply removeFree_watchMirror. exact Hflags.
Qed.

(** With remove and force both set and fake unset, a [Remove] event does
    remove the target. *)
Lemma watchEvent_remove_performed event mj :
  evType event = EventRemove ->
  isRemove = true -> isForce = true -> isFake = false ->
  exists target,
    removes (log (snd (watchEvent newClient clientStat removeSingle
                         uploadSourceToTargetURL mustExpandAlias filepathAbs
                         filepathJoin urlJoinPath newClientURL URLString
                         stringsReplace isForce isFake isRemove
                         sourceURL targetURL event mj))) =
    Remove target :: removes (log mj).
Proof.
  intros Ht Hr Hf Hk. unfold watchEvent. rewrite Ht, Hr, Hf. simpl.
  unfold doRemove. rewrite Hk. simpl.
  eexists. unfold bind, getJob, getState, send, emit. simpl. reflexivity.
Qed.

(** C3, amended: a [Create] event of size 0 whose source can no longer be
    stat-ed starts no copy (no get, put or remove), but it is not dropped
    silently: the item, carrying the stat error, is sent to the status
    channel, where [startStatus] reports it to the user as a failed copy. *)
Theorem C3_vanished_source_is_reported event e mj :
  evType event = EventCreate ->
  evSize event = 0%Z ->
  newClient (aliasedPath mustExpandAlias filepathAbs stringsReplace
               sourceURL event) = None ->
  clientStat (log mj)
             (aliasedPath mustExpandAlias filepathAbs stringsReplace
                sourceURL event) = inl e ->
  let path := aliasedPath mustExpandAlias filepathAbs stringsReplace
                sourceURL event in
  let item := WithError (createURLs mustExpandAlias filepathAbs urlJoinPath
                           newClientURL sourceURL targetURL event) (Some e) in
  let mj1 := mkJob (TotalObjects mj) (TotalBytes mj) (statusTotal mj)
                   (watcherRunning mj)
                   (StatusSend item :: Stat path :: log mj) in
  let url := URLString (newClientURL (evPath event)) in
  watchEvent newClient clientStat removeSingle uploadSourceToTargetURL
    mustExpandAlias filepathAbs filepathJoin urlJoinPath newClientURL
    URLString stringsReplace isForce isFake isRemove sourceURL targetURL
    event mj = (Ok Continue, mj1) /\
  transfers (log mj1) = transfers (log mj) /\
  statusEntry filepathJoin URLString item mj1 =
  (Ok tt,
   mkJob (TotalObjects mj) (TotalBytes mj) (statusTotal mj) (watcherRunning mj)
         (ErrorIf e ("Failed to copy ‘" ++ url ++ "’.")
            :: Traced e [url] :: log mj1)).
Proof.
  intros Ht Hs Hc Hst. simpl. split; [| split].
  - unfold watchEvent. rewrite Ht, Hs. simpl. rewrite Hc.
    unfold bind, Stat_, getJob, getState, emit, send, ret. simpl.
    rewrite Hst. reflexivity.
  - reflexivity.
  - reflexivity.
Qed.

End EngineProperties.

Lemma C4_remove_only_with_remove_and_force_witness :
  let gone :=
    Engine.mkURLs "" None "" (Some (Engine.mkContent (Engine.mkURL "dst/old") 0))
                  0 0 None in
  let ev := Engine.mkEvent "src/old" Engine.EventRemove 0 in
  Engine.removes
    (Engine.log (snd (Engine.startMirror Engine.removeOk Engine.uploadOk
                        Engine.joinPath Engine.Path Engine.notFolder
                        false false true [gone] Engine.emptyJob))) = [] /\
  Engine.removes
    (Engine.log (snd (Engine.watchMirror Engine.clientOk Engine.statVanished
                        Engine.removeOk Engine.uploadOk Engine.noAlias
                        Engine.absSame Engine.joinPath Engine.joinPath
                        Engine.mkURL Engine.Path Engine.replaceSame
                        false false true "src/" "dst/"
                        [Engine.OnEvent ev] Engine.emptyJob))) = [].
Proof.
  intros gone ev.
  destruct (C4_remove_only_with_remove_and_force
              Engine.clientOk Engine.statVanished Engine.removeOk
              Engine.uploadOk Engine.noAlias Engine.absSame Engine.joinPath
              Engine.joinPath Engine.mkURL Engine.Path Engine.replaceSame
              Engine.notFolder false false true "src/" "dst/" eq_refl)
    as [Hstart Hwatch].
  split.
  - exact (Hstart [gone] Engine.emptyJob).
  - exact (Hwatch [Engine.OnEvent ev] Engine.emptyJob).
Defined.

(** C3 as stated fails: with the source gone, the watcher sends the event's
    item to the status channel and the user is shown an error. *)
Lemma C3_vanished_source_not_silent :
  ~ (forall (clientStat : list Engine.effect -> string ->
                          probe.Error + Engine.clientContent)
            (isForce isFake isRemove : bool) (event : Engine.Event),
        Engine.evType event = Engine.EventCreate ->
        Engine.evSize event = 0%Z ->
        (forall l p, exists e, clientStat l p = inl e) ->
        let mj := Engine.watchAndReport clientStat isForce isFake isRemove
                    "src/" "dst/" [Engine.OnEvent event] in
        Engine.statusSent (Engine.log mj) = [] /\
        Engine.userErrors (Engine.log mj) = []).
Proof.
  intro H.
  destruct (H Engine.statVanished false false false
              (Engine.mkEvent "src/a.txt" Engine.EventCreate 0)
              eq_refl eq_refl
              (fun l p => ex_intro _ _ eq_refl)) as [_ Herr].
  discriminate Herr.
Qed.

Lemma C3_vanished_source_is_reported_witness :
  let event := Engine.mkEvent "src/a.txt" Engine.EventCreate 0 in
  let e := probe.NewError (probe.PathNotFound "src/a.txt") in
  let item :=
    Engine.mkURLs "" (Some (Engine.mkContent (Engine.mkURL "src/a.txt") 0))
                  "" (Some (Engine.mkContent (Engine.mkURL "dst/a.txt") 0))
                  0 0 (Some e) in
  Engine.watchEvent Engine.clientOk Engine.statVanished Engine.removeOk
    Engine.uploadOk Engine.noAlias Engine.absSame Engine.joinPath
    Engine.joinPath Engine.mkURL Engine.Path Engine.replaceSame
    false false false "src/" "dst/" event Engine.emptyJob =
  (Ok Engine.Continue,
   Engine.mkJob 0 0 0 true [Engine.StatusSend item; Engine.Stat "src/a.txt"]).
Proof.
  intros event e item.
  exact (proj1 (C3_vanished_source_is_reported
                  Engine.clientOk Engine.statVanished Engine.removeOk
                  Engine.uploadOk Engine.noAlias Engine.absSame Engine.joinPath
                  Engine.joinPath Engine.mkURL Engine.Path Engine.replaceSame
                  false false false "src/" "dst/" event e Engine.emptyJob
                  eq_refl eq_refl eq_refl eq_refl)).
Defined.

(** C7: an item that reaches the scheduler with an error is sent to the
    status sink as it is, and no get, put or remove is performed for it: in
    the session-based engine [doMirror] only adds a trace point to the
    error, sends the item on [statusCh] and runs its deferred calls; in the
    watch-capable engine [doMirror] returns the item and the statement
    [mj.statusCh <- mj.doMirror(sURLs)] sends it. *)
Theorem C7_error_item_forwarded_without_io :
  (forall quiet json getSource putTargets sc tcs e reader l,
      let sURLs := Legacy.mkMirrorURLs sc tcs (Some e) in
      let l' := Legacy.WgDone :: Legacy.QueueRelease
                  :: Legacy.StatusSend sURLs :: Legacy.Traced e [] :: l in
      Legacy.doMirror quiet json getSource putTargets sURLs reader l =
      (Ok tt, l') /\
      Legacy.transfers l' = Legacy.transfers l) /\
  (forall upload filepathJoin URLString isFake sa sc ta tc n z e mj,
      let sURLs := Engine.mkURLs sa sc ta tc n z (Some e) in
      let job := Engine.mkJob (Engine.TotalObjects mj) (Engine.TotalBytes mj)
                   (Engine.statusTotal mj) (Engine.watcherRunning mj) in
      Engine.doMirror upload filepathJoin URLString isFake sURLs mj =
      (Ok sURLs, job (Engine.Traced e [] :: Engine.log mj)) /\
      Engine.mirrorToStatus upload filepathJoin URLString isFake sURLs mj =
      (Ok tt,
       job (Engine.StatusSend sURLs :: Engine.Traced e [] :: Engine.log mj)) /\
      Engine.transfers
        (Engine.StatusSend sURLs :: Engine.Traced e [] :: Engine.log mj) =
      Engine.transfers (Engine.log mj)).
Proof.
  split.
  - intros. split; reflexivity.
  - intros. repeat split; reflexivity.
Qed.

(** ** The session-based engine *)
Section LegacyProperties.

Import Legacy.

(** C9, evaluated on the code: with quiet set and JSON and debug unset,
    [doMirrorSession] sets up an accounter, and [doMirrorFake], which tests
    debug where the other functions test quiet, asserts a bar and
    panics. *)
Theorem C9_doMirrorFake_panics_when_quiet :
  newProgressReader true false = accounter /\
  forall sURLs l,
    doMirrorFake false false sURLs (newProgressReader true false) l = (Panic, l).
Proof. split; reflexivity. Qed.

(** On the reader the session sets up, [doMirrorFake] of an item with a
    source panics exactly when quiet is set and JSON and debug are not. *)
Lemma doMirrorFake_panics_iff quiet json debug sc tcs e l :
  isPanic (fst (doMirrorFake json debug (mkMirrorURLs (Some sc) tcs e)
                  (newProgressReader quiet json) l)) =
  quiet && negb json && negb debug.
Proof. destruct quiet, json, debug; reflexivity. Qed.

(** Unless quiet is set with JSON and debug unset, [doMirrorFake] of an
    item with a source returns; it advances the bar by the size of the item
    when neither debug nor JSON is set, and does nothing else. *)
Lemma doMirrorFake_runs quiet json debug sURLs sc l :
  quiet && negb json && negb debug = false ->
  SourceContent sURLs = Some sc ->
  doMirrorFake json debug sURLs (newProgressReader quiet json) l =
  (Ok tt,
   ((if negb debug && negb json then [Progress (Size sc)] else []) ++ l)%list).
Proof.
  intros Hf Hsc. unfold doMirrorFake, newProgressReader.
  destruct quiet, json, debug; try discriminate; simpl; try reflexivity;
    unfold bind; simpl; rewrite Hsc; reflexivity.
Qed.

(** *** Sessions and interrupts *)

Section SessionProperties.

Variables (globalQuietFlag globalJSONFlag : bool).
Variable isEmpty : mirrorURLs -> bool.
Variable marshalFails : mirrorURLs -> bool.

Lemma persisted_eraseline p :
  persisted (eraseline globalQuietFlag globalJSONFlag p) = persisted p.
Proof. unfold eraseline. destruct (_ && _); reflexivity. Qed.

Lemma session_eraseline p :
  session (eraseline globalQuietFlag globalJSONFlag p) = session p.
Proof. unfold eraseline. destruct (_ && _); reflexivity. Qed.

Lemma state_eraseline p :
  state (eraseline globalQuietFlag globalJSONFlag p) = state p.
Proof. unfold eraseline. destruct (_ && _); reflexivity. Qed.




Variable globalDebugFlag : bool.




Variable HasData : sessionV2 -> bool.


End SessionProperties.

(** *** The admission gate *)

Lemma releaseFree_ret {A} (a : A) : releaseFree (ret a).
Proof. intro l. reflexivity. Qed.

Lemma releaseFree_panic {A} : releaseFree (@panic (list effect) A).
Proof. intro l. reflexivity. Qed.

Lemma releaseFree_bind {A B} (m : M A) (f : A -> M B) :
  releaseFree m -> (forall a, releaseFree (f a)) -> releaseFree (bind m f).
Proof.
  intros Hm Hf l. unfold bind.
  specialize (Hm l). destruct (m l) as [[a|] l1]; simpl in *.
  - rewrite Hf. exact Hm.
  - exact Hm.
Qed.

Lemma releaseFree_emit (e : effect) :
  isQueueRelease e = false -> releaseFree (emit e).
Proof. intros He l. simpl. rewrite He. reflexivity. Qed.

Lemma releaseFree_deref {A} (p : option A) : releaseFree (deref p).
Proof. destruct p; [apply releaseFree_ret | apply releaseFree_panic]. Qed.

Lemma releaseFree_assertBarSend r : releaseFree (assertBarSend r).
Proof. destruct r; [apply releaseFree_ret | apply releaseFree_panic]. Qed.

Lemma releaseFree_assertAccounter r : releaseFree (assertAccounter r).
Proof. destruct r; [apply releaseFree_panic | apply releaseFree_ret]. Qed.

Ltac release_free :=
  repeat first
    [ apply releaseFree_ret
    | apply releaseFree_panic
    | apply releaseFree_deref
    | apply releaseFree_assertBarSend
    | apply releaseFree_assertAccounter
    | apply releaseFree_emit; reflexivity
    | apply releaseFree_bind; [ | intro ]
    | match goal with
      | |- releaseFree (match ?x with _ => _ end) => destruct x
      | |- releaseFree (let '(_, _) := ?x in _) => destruct x
      end ].

(** The body of [doMirror] never touches [mirrorQueue]: the only receive is
    the deferred one. *)
Lemma releaseFree_doMirrorBody quiet json getSource putTargets sURLs reader :
  releaseFree (doMirrorBody quiet json getSource putTargets sURLs reader).
Proof. unfold doMirrorBody, Trace. release_free. Qed.

Lemma existsb_rev {A} (f : A -> bool) (l : list A) :
  existsb f (rev l) = existsb f l.
Proof.
  induction l as [| a l IH]; simpl; [reflexivity |].
  rewrite existsb_app, IH. simpl. rewrite orb_false_r. apply orb_comm.
Qed.

Lemma filter_nil_existsb {A} (f : A -> bool) (l : list A) :
  filter f l = [] -> existsb f l = false.
Proof.
  induction l as [| a l IH]; simpl; [reflexivity |].
  destruct (f a); [discriminate | exact IH].
Qed.

(** Every way through [doMirror] ends with the release and [wg.Done]. *)
Lemma doMirrorTrace_shape quiet json getSource putTargets sURLs :
  exists body,
    doMirrorTrace quiet json getSource putTargets sURLs =
    (body ++ [QueueRelease; WgDone])%list /\
    holdsSlot body = false.
Proof.
  unfold doMirrorTrace, doMirror.
  pose proof (releaseFree_doMirrorBody quiet json getSource putTargets sURLs
                (newProgressReader quiet json) []) as Hfree.
  destruct (doMirrorBody quiet json getSource putTargets sURLs
              (newProgressReader quiet json) []) as [r l'].
  simpl in *. exists (rev l'). split.
  - rewrite <- app_assoc. reflexivity.
  - unfold holdsSlot. rewrite existsb_rev. apply filter_nil_existsb. exact Hfree.
Qed.

Lemma releases_after_body body :
  holdsSlot body = false ->
  releases (body ++ [QueueRelease; WgDone]) = 1%nat.
Proof.
  unfold releases, holdsSlot. induction body as [| e body IH]; simpl; intro H.
  - reflexivity.
  - apply orb_false_iff in H. destruct H as [He Hb]. rewrite He. apply IH, Hb.
Qed.

Lemma holdsSlot_after_body body :
  holdsSlot (body ++ [QueueRelease; WgDone]) = true.
Proof.
  unfold holdsSlot. rewrite existsb_app. simpl. apply orb_true_r.
Qed.

Lemma gated_after_body body :
  holdsSlot body = false ->
  gated (body ++ [QueueRelease; WgDone]) = true.
Proof.
  unfold holdsSlot. induction body as [| e body IH]; simpl; intro H.
  - reflexivity.
  - apply orb_false_iff in H. destruct H as [He Hb]. rewrite He.
    rewrite (IH Hb), holdsSlot_after_body. destruct (isTransferIO e); reflexivity.
Qed.

Lemma gated_idle w : transferring w = false -> gated w = true.
Proof.
  unfold transferring. induction w as [| e w IH]; simpl; intro H.
  - reflexivity.
  - apply orb_false_iff in H. destruct H as [He Hw]. rewrite He.
    destruct (isQueueRelease e).
    + fold (transferring w). unfold transferring. rewrite Hw. reflexivity.
    + apply IH, Hw.
Qed.

(** A worker with I/O still to come holds a slot. *)
Lemma gated_transferring w :
  gated w = true -> transferring w = true -> (1 <= releases w)%nat.
Proof.
  unfold transferring, releases. induction w as [| e w IH]; simpl; intros Hg Ht.
  - discriminate.
  - destruct (isQueueRelease e) eqn:He; simpl; [lia |].
    destruct (isTransferIO e) eqn:Hio; simpl in *.
    + apply andb_prop in Hg. destruct Hg as [Hs _].
      unfold holdsSlot in Hs. clear IH Ht.
      induction w as [| e' w IHw]; simpl in *; [discriminate |].
      destruct (isQueueRelease e'); simpl in *; [lia | apply IHw, Hs].
    + apply IH; assumption.
Qed.

Lemma inFlight_le_releases ws :
  Forall (fun w => gated w = true) ws ->
  (List.length (filter transferring ws) <= list_sum (map releases ws))%nat.
Proof.
  induction 1 as [| w ws Hw Hws IH]; simpl; [lia |].
  destruct (transferring w) eqn:Ht; simpl.
  - pose proof (gated_transferring w Hw Ht). lia.
  - lia.
Qed.

Lemma releases_release w : releases (QueueRelease :: w) = S (releases w).
Proof. reflexivity. Qed.

Lemma releases_other e w :
  isQueueRelease e = false -> releases (e :: w) = releases w.
Proof. intro He. unfold releases. simpl. rewrite He. reflexivity. Qed.

Lemma list_sum_releases_app ws1 w ws2 :
  list_sum (map releases (ws1 ++ w :: ws2)) =
  (list_sum (map releases ws1) + releases w + list_sum (map releases ws2))%nat.
Proof. rewrite map_app, list_sum_app. simpl. lia. Qed.

Section GateProperties.

Variables (globalQuietFlag globalJSONFlag globalDebugFlag : bool).
Variable numCPU : Z.
Variable lastCopied : string.

Lemma step_admitted s s' :
  step globalQuietFlag globalJSONFlag globalDebugFlag numCPU lastCopied s s' ->
  admitted numCPU s -> admitted numCPU s'.
Proof.
  unfold admitted.
  intros Hstep (Hsum & Hcap & Hg).
  destruct Hstep as [sURLs sc rest c q ws c' Hsc Hcop Hfake
                    | sURLs sc rest c q ws c' gs pt Hsc Hcop Hlt
                    | pend c q ws1 w ws2
                    | pend c q ws1 e w ws2 He]; simpl in *.
  - repeat split; assumption.
  - destruct (doMirrorTrace_shape globalQuietFlag globalJSONFlag gs pt sURLs)
      as (body & Heq & Hbody).
    rewrite Heq. repeat split.
    + rewrite (releases_after_body body Hbody). lia.
    + lia.
    + constructor; [apply gated_after_body; exact Hbody | exact Hg].
  - rewrite list_sum_releases_app in Hsum. rewrite list_sum_releases_app.
    rewrite releases_release in Hsum.
    apply Forall_app in Hg. destruct Hg as [Hg1 Hg2].
    apply Forall_cons_iff in Hg2. destruct Hg2 as [Hw Hg3]. simpl in Hw.
    apply negb_true_iff in Hw.
    repeat split.
    + lia.
    + lia.
    + apply Forall_app. split; [exact Hg1 |].
      constructor; [apply gated_idle; exact Hw | exact Hg3].
  - rewrite list_sum_releases_app in Hsum. rewrite list_sum_releases_app.
    rewrite (releases_other e w He) in Hsum.
    apply Forall_app in Hg. destruct Hg as [Hg1 Hg2].
    apply Forall_cons_iff in Hg2. destruct Hg2 as [Hw Hg3].
    simpl in Hw. rewrite He in Hw.
    repeat split.
    + exact Hsum.
    + exact Hcap.
    + apply Forall_app. split; [exact Hg1 |].
      constructor; [| exact Hg3].
      destruct (isTransferIO e); [| exact Hw].
      apply andb_prop in Hw. apply Hw.
Qed.

Lemma reachable_admitted lines s :
  reachable globalQuietFlag globalJSONFlag globalDebugFlag numCPU lastCopied
    lines s ->
  admitted numCPU s.
Proof.
  induction 1 as [| s s' Hreach IH Hstep].
  - unfold admitted, startScheduler, mirrorQueueCap. simpl.
    repeat split; [lia | constructor].
  - exact (step_admitted s s' Hstep IH).
Qed.

(** C8: in every state the session-based engine can reach, whatever the
    interleaving of its goroutines, the workers with storage I/O still to
    perform are at most the values held by [mirrorQueue], which are at most
    max(NumCPU-1, 1); a worker gets its slot before it is started and
    gives it back exactly once, after its I/O, on every way out of
    [doMirror] (error item, failed get, failed put, success, panic). *)
Theorem C8_admission_gate_bounds_transfers lines s :
  reachable globalQuietFlag globalJSONFlag globalDebugFlag numCPU lastCopied
    lines s ->
  (inFlight s <= mirrorQueue s)%nat /\
  (mirrorQueue s <= Z.to_nat (Z.max (numCPU - 1) 1))%nat /\
  Forall (fun w => transferring w = true -> holdsSlot w = true) (workers s) /\
  (forall getSource putTargets sURLs,
      let w := doMirrorTrace globalQuietFlag globalJSONFlag
                 getSource putTargets sURLs in
      releases w = 1%nat /\ gated w = true).
Proof.
  intro Hreach.
  destruct (reachable_admitted lines s Hreach) as (Hsum & Hcap & Hg).
  split; [| split; [| split]].
  - unfold inFlight. rewrite <- Hsum. apply inFlight_le_releases. exact Hg.
  - exact Hcap.
  - apply Forall_impl with (2 := Hg).
    intros w Hw Ht. pose proof (gated_transferring w Hw Ht) as Hrel.
    unfold holdsSlot. unfold releases in Hrel.
    clear Hw Ht. induction w as [| e w IHw]; simpl in *; [lia |].
    destruct (isQueueRelease e); simpl in *; [reflexivity | apply IHw, Hrel].
  - intros gs pt sURLs w. subst w.
    destruct (doMirrorTrace_shape globalQuietFlag globalJSONFlag gs pt sURLs)
      as (body & Heq & Hbody).
    rewrite Heq. split;
      [apply releases_after_body | apply gated_after_body]; exact Hbody.
Qed.

End GateProperties.

End LegacyProperties.



Lemma C8_admission_gate_bounds_transfers_witness :
  let a := Legacy.file "a" 10 in
  let s := Legacy.mkScheduler [] true 1
             [Legacy.doMirrorTrace false false Legacy.sourceOk Legacy.targetsOk a] in
  (Legacy.inFlight s <= 1)%nat /\ (1 <= 3)%nat.
Proof.
  intros a s.
  assert (Hreach : Legacy.reachable false false false 4 "" [a] s).
  { eapply Legacy.reach_step; [apply Legacy.reach_start |].
    apply (Legacy.step_spawn false false false 4 "" a (Legacy.mkContent "a" 10)
             [] true 0%nat [] true Legacy.sourceOk Legacy.targetsOk);
      [reflexivity | reflexivity | vm_compute; lia]. }
  destruct (C8_admission_gate_bounds_transfers false false false 4 "" [a] s
              Hreach)
    as (Hflight & Hcap & _).
  split; [exact Hflight | exact Hcap].
Defined.

(** * Further properties *)

(** ** Strings *)

Lemma length_append (a b : string) :
  String.length (a ++ b) = (String.length a + String.length b)%nat.
Proof. induction a as [| c a IH]; simpl; [reflexivity | rewrite IH; reflexivity]. Qed.

Lemma substring_full (s : string) : substring 0 (String.length s) s = s.
Proof. induction s as [| c s IH]; simpl; [reflexivity | rewrite IH; reflexivity]. Qed.

Lemma substring_skip (a b : string) (m : nat) :
  substring (String.length a) m (a ++ b) = substring 0 m b.
Proof. induction a as [| c a IH]; simpl; [reflexivity | exact IH]. Qed.


Lemma prefix_append (p s : string) : prefix p (p ++ s) = true.
Proof.
  induction p as [| c p IH]; simpl.
  - destruct s; reflexivity.
  - destruct (Ascii.ascii_dec c c) as [_ | Hne]; [exact IH | contradiction].
Qed.

(** [TrimPrefix] takes a prefix off, [HasSuffix] finds a suffix put on. *)
Lemma TrimPrefix_append (p s : string) : TrimPrefix (p ++ s) p = s.
Proof.
  unfold TrimPrefix. rewrite prefix_append, length_append.
  replace (String.length p + String.length s - String.length p)%nat
    with (String.length s) by lia.
  rewrite substring_skip. apply substring_full.
Qed.

Lemma HasSuffix_append (u suffix : string) : HasSuffix (u ++ suffix) suffix = true.
Proof.
  unfold HasSuffix. rewrite length_append.
  replace (String.length u + String.length suffix - String.length suffix)%nat
    with (String.length u) by lia.
  rewrite substring_skip, substring_full, String.eqb_refl.
  rewrite andb_true_r. apply Nat.leb_le. lia.
Qed.

(** ** The work-item generator, further *)
Section DeltaFurther.

Import Delta.

Variable Separator : string -> string.
Variable mustExpandAlias : string -> string * string.
Variable urlJoinPath : string -> string -> string.
Variable newClientFromAlias : string -> string -> option probe.Error.
Variables (isForce isFake isRemove : bool).

Lemma deltaEntry_wellFormed sa su ta tu d outs :
  deltaEntry urlJoinPath isForce isFake isRemove sa su ta tu d = Ok outs ->
  Forall (fun m => isErrorOnly m || isCopy m = true) (sent outs).
Proof.
  unfold deltaEntry. intro H.
  destruct (err d) as [e|].
  - inversion H; subst. simpl. repeat constructor.
  - repeat match type of H with
           | (if ?b then _ else _) = _ => destruct b
           | match ?x with _ => _ end = _ => destruct x
           end;
      inversion H; subst; simpl; repeat constructor.
Qed.

Lemma deltaLoop_wellFormed sa su ta tu ds :
  Forall (fun m => isErrorOnly m || isCopy m = true)
    (sent (fst (deltaLoop urlJoinPath isForce isFake isRemove sa su ta tu ds))).
Proof.
  induction ds as [| d ds IH]; simpl.
  - constructor.
  - destruct (deltaEntry urlJoinPath isForce isFake isRemove sa su ta tu d)
      as [outs|] eqn:Hd; [| constructor].
    destruct (deltaLoop urlJoinPath isForce isFake isRemove sa su ta tu ds)
      as [more fin]. simpl in *.
    rewrite sent_app. apply Forall_app. split; [| exact IH].
    exact (deltaEntry_wellFormed sa su ta tu d outs Hd).
Qed.

Lemma deltaSourceTargets_shapes sourceURL targetURL diffs :
  Forall (fun m => isErrorOnly m || isCopy m = true)
    (sent (fst (deltaSourceTargets Separator mustExpandAlias urlJoinPath
                  newClientFromAlias isForce isFake isRemove
                  sourceURL targetURL diffs))).
Proof.
  unfold deltaSourceTargets.
  destruct (mustExpandAlias (withSeparator Separator sourceURL)) as [sa su].
  destruct (mustExpandAlias (withSeparator Separator targetURL)) as [ta tu].
  destruct (newClientFromAlias sa su) as [e|].
  - simpl. repeat constructor.
  - destruct (newClientFromAlias ta tu) as [e|].
    + simpl. repeat constructor.
    + apply deltaLoop_wellFormed.
Qed.

(** X1: every item [deltaSourceTargets] sends is either an error alone or a
    copy item with source and target; it never sends a delete-only item,
    whatever the flags and whatever the differencer delivers. *)
Theorem X1_generator_sends_errors_and_copies_only sourceURL targetURL diffs :
  Forall (fun m => isErrorOnly m || isCopy m = true)
    (sent (fst (deltaSourceTargets Separator mustExpandAlias urlJoinPath
                  newClientFromAlias isForce isFake isRemove
                  sourceURL targetURL diffs))).
Proof. apply deltaSourceTargets_shapes. Qed.

(** X2: an entry of the differencer that carries an error does not stop the
    walk: it is sent on as one error item, after the items of the entries
    before it and before the items of the entries after it. *)
Theorem X2_error_entry_does_not_stop_the_walk sa su ta tu pre d post e :
  err d = Some e ->
  snd (deltaLoop urlJoinPath isForce isFake isRemove sa su ta tu pre) = true ->
  let run := deltaLoop urlJoinPath isForce isFake isRemove sa su ta tu in
  sent (fst (run (pre ++ d :: post)%list)) =
  (sent (fst (run pre)) ++ errorURLs e :: sent (fst (run post)))%list /\
  snd (run (pre ++ d :: post)%list) = snd (run post).
Proof.
  intros He Hpre run. subst run. rewrite deltaLoop_app. simpl. rewrite Hpre.
  assert (Hd : deltaEntry urlJoinPath isForce isFake isRemove sa su ta tu d =
               Ok [Traced e [su; tu]; Send (errorURLs e)])
    by (unfold deltaEntry; rewrite He; reflexivity).
  rewrite Hd.
  destruct (deltaLoop urlJoinPath isForce isFake isRemove sa su ta tu post)
    as [mp fp]. simpl.
  split; [| reflexivity].
  rewrite sent_app. reflexivity.
Qed.

(** X3: when the client of the source, or with it created the client of the
    target, cannot be created, [deltaSourceTargets] sends that error as its
    only item and reads nothing from the differencer. *)
Theorem X3_client_failure_sends_one_error sourceURL targetURL diffs :
  let s := mustExpandAlias (withSeparator Separator sourceURL) in
  let t := mustExpandAlias (withSeparator Separator targetURL) in
  let run := deltaSourceTargets Separator mustExpandAlias urlJoinPath
               newClientFromAlias isForce isFake isRemove
               sourceURL targetURL diffs in
  (forall e, newClientFromAlias (fst s) (snd s) = Some e ->
             sent (fst run) = [errorURLs e] /\ snd run = true) /\
  (forall e, newClientFromAlias (fst s) (snd s) = None ->
             newClientFromAlias (fst t) (snd t) = Some e ->
             sent (fst run) = [errorURLs e] /\ snd run = true).
Proof.
  intros s t run. subst s t run. unfold deltaSourceTargets.
  destruct (mustExpandAlias (withSeparator Separator sourceURL)) as [sa su].
  destruct (mustExpandAlias (withSeparator Separator targetURL)) as [ta tu].
  simpl. split.
  - intros e He. rewrite He. split; reflexivity.
  - intros e Hs Ht. rewrite Hs, Ht. split; reflexivity.
Qed.

(** X4: an entry that is only in the source, found under the source URL,
    is sent on as a copy item whose target is the entry's path relative to
    the source joined to the target URL, for every combination of force,
    fake and remove. *)
Theorem X4_only_in_source_keeps_relative_path
    sa su ta tu firstURL secondURL suffix size :
  deltaEntry urlJoinPath isForce isFake isRemove sa su ta tu
    (mkDiff None differInFirst firstURL secondURL
            (Some (mkContent (su ++ suffix) size))) =
  Ok [Send (mkMirrorURLs sa (Some (mkContent (su ++ suffix) size)) ta
              (Some (mkContent (urlJoinPath tu suffix) 0)) None)].
Proof.
  unfold deltaEntry. simpl. rewrite !andb_false_r. simpl.
  rewrite TrimPrefix_append. reflexivity.
Qed.

(** X5: the URL [deltaSourceTargets] works with always ends with the
    separator, and a URL that already ends with it is left as it is. *)
Theorem X5_withSeparator_ends_with_separator u :
  HasSuffix (withSeparator Separator u) (Separator u) = true /\
  (HasSuffix u (Separator u) = true -> withSeparator Separator u = u).
Proof.
  unfold withSeparator. split.
  - destruct (HasSuffix u (Separator u)) eqn:H; [exact H |].
    apply HasSuffix_append.
  - intro H. rewrite H. reflexivity.
Qed.

End DeltaFurther.

(** ** Arithmetic of [int64] *)

Lemma wrap64_add_l (a b : Z) : wrap64 (wrap64 a + b) = wrap64 (a + b).
Proof.
  unfold wrap64.
  replace ((a + 2 ^ 63) mod 2 ^ 64 - 2 ^ 63 + b + 2 ^ 63)%Z
    with ((a + 2 ^ 63) mod 2 ^ 64 + b)%Z by ring.
  rewrite Zplus_mod_idemp_l.
  replace (a + 2 ^ 63 + b)%Z with (a + b + 2 ^ 63)%Z by ring.
  reflexivity.
Qed.

Lemma wrap64_idem (a : Z) : wrap64 (wrap64 a) = wrap64 a.
Proof.
  rewrite <- (Z.add_0_r (wrap64 a)) at 1. rewrite wrap64_add_l.
  rewrite Z.add_0_r. reflexivity.
Qed.



Lemma wrap64_range (a : Z) : (- 2 ^ 63 <= wrap64 a < 2 ^ 63)%Z.
Proof.
  unfold wrap64.
  pose proof (Z.mod_pos_bound (a + 2 ^ 63) (2 ^ 64) ltac:(lia)). lia.
Qed.

(** ** The watch-capable engine, further *)
Section EngineFurther.

Import Engine.

Variable newClient : string -> option probe.Error.
Variable clientStat : list effect -> string -> probe.Error + clientContent.
Variable removeSingle : list effect -> string -> option probe.goError.
Variable uploadSourceToTargetURL : list effect -> URLs -> URLs.
Variable mustExpandAlias : string -> string * string.
Variable filepathAbs : string -> option string.
Variable filepathJoin : string -> string -> string.
Variable urlJoinPath : string -> string -> string.
Variable newClientURL : string -> clientURL.
Variable URLString : clientURL -> string.
Variable stringsReplace : string -> string -> string -> string.
Variable isFolderError : probe.Error -> bool.
Variables (isForce isFake isRemove : bool).
Variables (sourceURL targetURL : string).

Lemma bind_Ok {A B} (m : M A) (f : A -> M B) mj b mj' :
  bind m f mj = (Ok b, mj') ->
  exists a mj1, m mj = (Ok a, mj1) /\ f a mj1 = (Ok b, mj').
Proof.
  unfold bind. destruct (m mj) as [[a|] mj1]; intro H.
  - exists a, mj1. split; [reflexivity | exact H].
  - discriminate.
Qed.

Section Silent.

Variable P : effect -> bool.

Lemma silent_ret {A} (a : A) : silent P (ret a).
Proof. intro mj. reflexivity. Qed.

Lemma silent_panic {A} : silent P (@panic mirrorJob A).
Proof. intro mj. reflexivity. Qed.

Lemma silent_bind {A B} (m : M A) (f : A -> M B) :
  silent P m -> (forall a, silent P (f a)) -> silent P (bind m f).
Proof.
  intros Hm Hf mj. unfold bind.
  specialize (Hm mj). destruct (m mj) as [[a|] mj1]; simpl in *.
  - rewrite Hf. exact Hm.
  - exact Hm.
Qed.

Lemma silent_emit (e : effect) : P e = false -> silent P (emit e).
Proof. intros He mj. simpl. rewrite He. reflexivity. Qed.

Lemma silent_deref {A} (p : option A) : silent P (deref p).
Proof. destruct p; [apply silent_ret | apply silent_panic]. Qed.

Lemma silent_getJob : silent P getJob.
Proof. intro mj. reflexivity. Qed.

Lemma silent_setTotals a b : silent P (setTotals a b).
Proof. intro mj. reflexivity. Qed.

Lemma silent_setWatcherRunning b : silent P (setWatcherRunning b).
Proof. intro mj. reflexivity. Qed.

Lemma silent_setStatusTotal n :
  P (SetTotal n) = false -> silent P (setStatusTotal n).
Proof. intros He mj. simpl. rewrite He. reflexivity. Qed.

End Silent.

Ltac silent_with known :=
  repeat first
    [ known
    | apply silent_ret
    | apply silent_panic
    | apply silent_getJob
    | apply silent_deref
    | apply silent_setTotals
    | apply silent_setWatcherRunning
    | apply silent_setStatusTotal; reflexivity
    | apply silent_emit; reflexivity
    | apply silent_bind; [ | intro ]
    | match goal with
      | |- silent _ (match ?x with _ => _ end) => destruct x
      end ].

(** *** Fake mode *)

Lemma fake_doMirror sURLs :
  silent isTransferIO
    (doMirror uploadSourceToTargetURL filepathJoin URLString true sURLs).
Proof. unfold doMirror, Trace. silent_with fail. Qed.

Lemma fake_doRemove sURLs :
  silent isTransferIO (doRemove removeSingle filepathJoin true sURLs).
Proof. unfold doRemove. silent_with fail. Qed.

Lemma fake_mirrorToStatus sURLs :
  silent isTransferIO
    (mirrorToStatus uploadSourceToTargetURL filepathJoin URLString true sURLs).
Proof.
  unfold mirrorToStatus, send. apply silent_bind.
  - apply fake_doMirror.
  - intro r. apply silent_emit. reflexivity.
Qed.

Lemma fake_queueCopy u size :
  silent isTransferIO
    (queueCopy uploadSourceToTargetURL filepathJoin URLString true u size).
Proof.
  unfold queueCopy. apply silent_bind; [apply silent_getJob | intro mj].
  apply silent_bind; [apply silent_setStatusTotal; reflexivity | intros _].
  apply fake_mirrorToStatus.
Qed.

Lemma fake_Stat path : silent isTransferIO (Stat_ clientStat path).
Proof. unfold Stat_. silent_with fail. Qed.

Lemma fake_watchEvent event :
  silent isTransferIO
    (watchEvent newClient clientStat removeSingle uploadSourceToTargetURL
       mustExpandAlias filepathAbs filepathJoin urlJoinPath newClientURL
       URLString stringsReplace isForce true isRemove sourceURL targetURL event).
Proof.
  unfold watchEvent, send.
  silent_with
    ltac:(first [ apply fake_Stat | apply fake_queueCopy | apply fake_doRemove ]).
Qed.

Lemma fake_watchMirror inputs :
  silent isTransferIO
    (watchMirror newClient clientStat removeSingle uploadSourceToTargetURL
       mustExpandAlias filepathAbs filepathJoin urlJoinPath newClientURL
       URLString stringsReplace isForce true isRemove sourceURL targetURL inputs).
Proof.
  induction inputs as [| i rest IH]; simpl.
  - apply silent_ret.
  - destruct i as [event | e |].
    + apply silent_bind.
      * apply fake_watchEvent.
      * intros [|]; [exact IH | apply silent_ret].
    + destruct (probe.ToGoError e);
        try (apply silent_bind;
             [apply silent_emit; reflexivity | intro; exact IH]).
      apply silent_setWatcherRunning.
    + apply silent_ret.
Qed.

Lemma fake_startMirrorEntry totals sURLs :
  silent isTransferIO
    (startMirrorEntry removeSingle uploadSourceToTargetURL filepathJoin
       URLString isFolderError isForce true isRemove totals sURLs).
Proof.
  unfold startMirrorEntry, send, Trace. destruct totals as [tb to].
  silent_with
    ltac:(first [ apply fake_mirrorToStatus | apply fake_doRemove ]).
Qed.

Lemma fake_startMirrorFrom items :
  forall totals,
    silent isTransferIO
      (startMirrorFrom removeSingle uploadSourceToTargetURL filepathJoin
         URLString isFolderError isForce true isRemove totals items).
Proof.
  induction items as [| u rest IH]; intro totals; simpl.
  - apply silent_ret.
  - apply silent_bind; [apply fake_startMirrorEntry | intro t; apply IH].
Qed.

(** X6: with fake set, neither [startMirror], over any items, nor
    [watchMirror], over any events, uploads or removes anything, whatever
    force and remove are. *)
Theorem X6_fake_mode_transfers_nothing :
  (forall items mj,
      transfers (log (snd (startMirror removeSingle uploadSourceToTargetURL
                             filepathJoin URLString isFolderError
                             isForce true isRemove items mj))) =
      transfers (log mj)) /\
  (forall inputs mj,
      transfers (log (snd (watchMirror newClient clientStat removeSingle
                             uploadSourceToTargetURL mustExpandAlias filepathAbs
                             filepathJoin urlJoinPath newClientURL URLString
                             stringsReplace isForce true isRemove
                             sourceURL targetURL inputs mj))) =
      transfers (log mj)).
Proof.
  split.
  - intros items mj. apply fake_startMirrorFrom.
  - intros inputs mj. apply fake_watchMirror.
Qed.

(** *** Fields of the job that a computation leaves alone *)

Section Keeps.

Context {T : Type} (f : mirrorJob -> T).
Hypothesis f_log :
  forall a b c d l l', f (mkJob a b c d l) = f (mkJob a b c d l').

Lemma keeps_ret {A} (a : A) : keeps f (ret a).
Proof. intro mj. reflexivity. Qed.

Lemma keeps_panic {A} : keeps f (@panic mirrorJob A).
Proof. intro mj. reflexivity. Qed.

Lemma keeps_bind {A B} (m : M A) (g : A -> M B) :
  keeps f m -> (forall a, keeps f (g a)) -> keeps f (bind m g).
Proof.
  intros Hm Hg mj. unfold bind.
  specialize (Hm mj). destruct (m mj) as [[a|] mj1]; simpl in *.
  - rewrite Hg. exact Hm.
  - exact Hm.
Qed.

Lemma keeps_emit (e : effect) : keeps f (emit e).
Proof. intros [a b c d l]. simpl. apply f_log. Qed.

Lemma keeps_deref {A} (p : option A) : keeps f (deref p).
Proof. destruct p; [apply keeps_ret | apply keeps_panic]. Qed.

Lemma keeps_getJob : keeps f getJob.
Proof. intro mj. reflexivity. Qed.

Ltac keeps_basic :=
  repeat first
    [ apply keeps_ret
    | apply keeps_panic
    | apply keeps_getJob
    | apply keeps_deref
    | apply keeps_emit
    | apply keeps_bind; [ | intro ]
    | match goal with
      | |- keeps _ (match ?x with _ => _ end) => destruct x
      end ].

Lemma keeps_doMirror sURLs :
  keeps f (doMirror uploadSourceToTargetURL filepathJoin URLString isFake sURLs).
Proof. unfold doMirror, Trace. keeps_basic. Qed.

Lemma keeps_doRemove sURLs :
  keeps f (doRemove removeSingle filepathJoin isFake sURLs).
Proof. unfold doRemove. keeps_basic. Qed.

Lemma keeps_Stat path : keeps f (Stat_ clientStat path).
Proof. unfold Stat_. keeps_basic. Qed.

Lemma keeps_mirrorToStatus sURLs :
  keeps f (mirrorToStatus uploadSourceToTargetURL filepathJoin URLString
             isFake sURLs).
Proof.
  unfold mirrorToStatus, send. apply keeps_bind.
  - apply keeps_doMirror.
  - intro r. apply keeps_emit.
Qed.

Lemma keeps_mirrorOrRemove sURLs :
  keeps f (mirrorOrRemove removeSingle uploadSourceToTargetURL filepathJoin
             URLString isForce isFake isRemove sURLs).
Proof.
  unfold mirrorOrRemove, send.
  destruct (SourceContent sURLs); [apply keeps_mirrorToStatus |].
  destruct (TargetContent sURLs); [| apply keeps_ret].
  destruct (isRemove && isForce); [| apply keeps_ret].
  apply keeps_bind; [apply keeps_doRemove | intro r; apply keeps_emit].
Qed.

End Keeps.

Lemma TotalObjects_log a b c d l l' :
  TotalObjects (mkJob a b c d l) = TotalObjects (mkJob a b c d l').
Proof. reflexivity. Qed.

Lemma TotalBytes_log a b c d l l' :
  TotalBytes (mkJob a b c d l) = TotalBytes (mkJob a b c d l').
Proof. reflexivity. Qed.

Lemma statusTotal_log a b c d l l' :
  statusTotal (mkJob a b c d l) = statusTotal (mkJob a b c d l').
Proof. reflexivity. Qed.

Lemma watcherRunning_log a b c d l l' :
  watcherRunning (mkJob a b c d l) = watcherRunning (mkJob a b c d l').
Proof. reflexivity. Qed.

(** *** Items that [startMirror] does not remove *)





(** *** Totals and reports of [startMirror] *)

Lemma startMirrorEntry_counted tb to u :
  Error u = None ->
  let tb' := match SourceContent u with
             | Some sc => add64 tb (Size sc)
             | None => tb
             end in
  let to' := add64 to 1 in
  startMirrorEntry removeSingle uploadSourceToTargetURL filepathJoin URLString
    isFolderError isForce isFake isRemove (tb, to) u =
  (setTotals to' tb' ;;;
   setStatusTotal tb' ;;;
   mirrorOrRemove removeSingle uploadSourceToTargetURL filepathJoin URLString
     isForce isFake isRemove (withTotals u to' tb') ;;;
   ret (tb', to')).
Proof.
  intros He. unfold startMirrorEntry. rewrite He. reflexivity.
Qed.

Lemma silent_user_mirrorOrRemove sURLs :
  silent isUserError
    (mirrorOrRemove removeSingle uploadSourceToTargetURL filepathJoin
       URLString isForce isFake isRemove sURLs).
Proof.
  unfold mirrorOrRemove, mirrorToStatus, doMirror, doRemove, Trace, send.
  silent_with fail.
Qed.

(** What one counted item does to the job. *)
Lemma startMirrorEntry_counted_Ok tb to u mj r mj' :
  Error u = None ->
  startMirrorEntry removeSingle uploadSourceToTargetURL filepathJoin URLString
    isFolderError isForce isFake isRemove (tb, to) u mj = (Ok r, mj') ->
  r = (match SourceContent u with
       | Some sc => add64 tb (Size sc)
       | None => tb
       end, add64 to 1) /\
  TotalObjects mj' = snd r /\ TotalBytes mj' = fst r /\
  statusTotal mj' = fst r /\
  userErrors (log mj') = userErrors (log mj).
Proof.
  intros He Hrun. rewrite (startMirrorEntry_counted tb to u He) in Hrun.
  simpl in Hrun.
  apply bind_Ok in Hrun. destruct Hrun as ([] & mj1 & H1 & Hrun).
  apply bind_Ok in Hrun. destruct Hrun as ([] & mj2 & H2 & Hrun).
  apply bind_Ok in Hrun. destruct Hrun as ([] & mj3 & H3 & Hrun).
  inversion Hrun; subst r mj'. clear Hrun.
  unfold setTotals in H1. inversion H1; subst mj1. clear H1.
  unfold setStatusTotal in H2. simpl in H2. inversion H2; subst mj2. clear H2.
  match type of H3 with
  | mirrorOrRemove _ _ _ _ _ _ _ ?x ?st = _ =>
    pose proof (keeps_mirrorOrRemove TotalObjects TotalObjects_log x st) as K1;
    pose proof (keeps_mirrorOrRemove TotalBytes TotalBytes_log x st) as K2;
    pose proof (keeps_mirrorOrRemove statusTotal statusTotal_log x st) as K3;
    pose proof (silent_user_mirrorOrRemove x st) as K4
  end.
  rewrite H3 in K1, K2, K3, K4. simpl in K1, K2, K3, K4.
  repeat split; assumption.
Qed.

Lemma startMirrorEntry_error tb to u e mj :
  Error u = Some e ->
  startMirrorEntry removeSingle uploadSourceToTargetURL filepathJoin URLString
    isFolderError isForce isFake isRemove (tb, to) u mj =
  (Ok (tb, to),
   mkJob (TotalObjects mj) (TotalBytes mj) (statusTotal mj) (watcherRunning mj)
         (ErrorIf e (if isFolderError e
                     then "Folder cannot be copied. Please use ‘...’ suffix."
                     else "Unable to prepare URL for copying.")
            :: Traced e [] :: log mj)).
Proof.
  intro He. unfold startMirrorEntry. rewrite He.
  destruct (isFolderError e); reflexivity.
Qed.

Lemma counted_error u rest e :
  Error u = Some e ->
  counted (u :: rest) = counted rest /\ bytesOf (u :: rest) = bytesOf rest.
Proof.
  intro He. unfold bytesOf, counted. simpl. unfold hasError. rewrite He.
  split; reflexivity.
Qed.

Lemma counted_ok u rest :
  Error u = None ->
  counted (u :: rest) = u :: counted rest /\
  bytesOf (u :: rest) = (sourceSize u + bytesOf rest)%Z.
Proof.
  intro He. unfold bytesOf, counted. simpl. unfold hasError. rewrite He.
  split; reflexivity.
Qed.

Lemma startMirrorFrom_cons totals u rest :
  startMirrorFrom removeSingle uploadSourceToTargetURL filepathJoin URLString
    isFolderError isForce isFake isRemove totals (u :: rest) =
  bind (startMirrorEntry removeSingle uploadSourceToTargetURL filepathJoin
          URLString isFolderError isForce isFake isRemove totals u)
       (fun totals' =>
          startMirrorFrom removeSingle uploadSourceToTargetURL filepathJoin
            URLString isFolderError isForce isFake isRemove totals' rest).
Proof. reflexivity. Qed.

Lemma startMirrorFrom_totals items :
  forall tb to mj mj',
    wrap64 tb = tb -> wrap64 to = to ->
    startMirrorFrom removeSingle uploadSourceToTargetURL filepathJoin URLString
      isFolderError isForce isFake isRemove (tb, to) items mj = (Ok tt, mj') ->
    (counted items = [] ->
     TotalObjects mj' = TotalObjects mj /\ TotalBytes mj' = TotalBytes mj /\
     statusTotal mj' = statusTotal mj) /\
    (counted items <> [] ->
     TotalObjects mj' = wrap64 (to + Z.of_nat (List.length (counted items))) /\
     TotalBytes mj' = wrap64 (tb + bytesOf items) /\
     statusTotal mj' = wrap64 (tb + bytesOf items)).
Proof.
  induction items as [| u rest IH]; intros tb to mj mj' Htb Hto Hrun.
  - simpl in Hrun. inversion Hrun; subst. split; [auto | intro H; contradiction].
  - rewrite startMirrorFrom_cons in Hrun. apply bind_Ok in Hrun.
    destruct Hrun as (r & mj1 & Hentry & Hrest).
    destruct (Error u) as [e|] eqn:He.
    + destruct (counted_error u rest e He) as [Hc Hb]. rewrite Hc, Hb.
      rewrite (startMirrorEntry_error tb to u e mj He) in Hentry.
      inversion Hentry; subst r mj1. clear Hentry.
      exact (IH tb to _ mj' Htb Hto Hrest).
    + destruct (counted_ok u rest He) as [Hc Hb]. rewrite Hc, Hb.
      destruct (startMirrorEntry_counted_Ok tb to u mj r mj1 He Hentry)
        as (Hr & HO & HB & HS & _).
      subst r. simpl in HO, HB, HS.
      assert (Hb' : match SourceContent u with
                    | Some sc => add64 tb (Size sc)
                    | None => tb
                    end = wrap64 (tb + sourceSize u)).
      { unfold sourceSize, add64. destruct (SourceContent u); [reflexivity |].
        rewrite Z.add_0_r. symmetry. exact Htb. }
      rewrite Hb' in *.
      destruct (IH _ _ mj1 mj' (wrap64_idem _) (wrap64_idem _) Hrest)
        as [IH0 IH1].
      split; [intro H; discriminate | intros _].
      destruct (counted rest) as [| v vs] eqn:Hcr.
      * destruct (IH0 eq_refl) as (E1 & E2 & E3).
        rewrite E1, E2, E3, HO, HB, HS.
        assert (Hz : bytesOf rest = 0%Z) by (unfold bytesOf; rewrite Hcr; reflexivity).
        rewrite Hz, Z.add_0_r. repeat split; reflexivity.
      * destruct (IH1 ltac:(discriminate)) as (E1 & E2 & E3).
        rewrite E1, E2, E3. unfold add64. rewrite !wrap64_add_l.
        repeat split; f_equal; try ring.
        change (List.length (u :: v :: vs)) with (S (List.length (v :: vs))).
        rewrite Nat2Z.inj_succ. ring.
Qed.

Lemma startMirrorFrom_reports items :
  forall totals mj mj',
    startMirrorFrom removeSingle uploadSourceToTargetURL filepathJoin URLString
      isFolderError isForce isFake isRemove totals items mj = (Ok tt, mj') ->
    userErrors (log mj') =
    (rev (reports isFolderError items) ++ userErrors (log mj))%list.
Proof.
  induction items as [| u rest IH]; intros [tb to] mj mj' Hrun.
  - simpl in Hrun. inversion Hrun; subst. reflexivity.
  - rewrite startMirrorFrom_cons in Hrun. apply bind_Ok in Hrun.
    destruct Hrun as (r & mj1 & Hentry & Hrest).
    rewrite (IH r mj1 mj' Hrest). unfold reports. simpl.
    destruct (Error u) as [e|] eqn:He.
    + rewrite (startMirrorEntry_error tb to u e mj He) in Hentry.
      inversion Hentry; subst r mj1. simpl.
      rewrite <- app_assoc. reflexivity.
    + destruct (startMirrorEntry_counted_Ok tb to u mj r mj1 He Hentry)
        as (_ & _ & _ & _ & HU).
      rewrite HU. reflexivity.
Qed.

(** X7: when [startMirror] has gone through its items, the job's object
    count is the number of items without an error and its byte count is the
    sum of their source sizes (in [int64] arithmetic); when every item
    carried an error the two counters are untouched.  Both are written by
    [startMirror] alone, from the counters local to its loop. *)
Theorem X7_startMirror_totals items mj mj' :
  startMirror removeSingle uploadSourceToTargetURL filepathJoin URLString
    isFolderError isForce isFake isRemove items mj = (Ok tt, mj') ->
  (counted items = [] ->
   TotalObjects mj' = TotalObjects mj /\ TotalBytes mj' = TotalBytes mj) /\
  (counted items <> [] ->
   TotalObjects mj' = wrap64 (Z.of_nat (List.length (counted items))) /\
   TotalBytes mj' = wrap64 (bytesOf items)).
Proof.
  intro Hrun. unfold startMirror in Hrun.
  destruct (startMirrorFrom_totals items 0%Z 0%Z mj mj' eq_refl eq_refl Hrun)
    as [H0 H1].
  split; intro Hc.
  - destruct (H0 Hc) as (E1 & E2 & _). split; assumption.
  - destruct (H1 Hc) as (E1 & E2 & _). split; assumption.
Qed.

(** X8: [startMirror] reports every item that carries an error to the user
    once, in the order of arrival, and reports nothing else; such an item is
    neither counted nor passed on. *)
Theorem X8_startMirror_reports_each_error_once items mj mj' :
  startMirror removeSingle uploadSourceToTargetURL filepathJoin URLString
    isFolderError isForce isFake isRemove items mj = (Ok tt, mj') ->
  userErrors (log mj') =
  (rev (reports isFolderError items) ++ userErrors (log mj))%list /\
  List.length (reports isFolderError items) =
  List.length (filter hasError items).
Proof.
  intro Hrun. split.
  - exact (startMirrorFrom_reports items (0%Z, 0%Z) mj mj' Hrun).
  - unfold reports. clear Hrun.
    induction items as [| u rest IH]; simpl; [reflexivity |].
    unfold hasError at 1. destruct (Error u); simpl; rewrite IH; reflexivity.
Qed.

(** *** Removals and nil dereferences of [startMirror] *)






(** One item makes [startMirror] dereference a nil pointer exactly when it
    is to be copied for real and has no target. *)
Lemma startMirrorEntry_panics totals u mj :
  isPanic (fst (startMirrorEntry removeSingle uploadSourceToTargetURL
                  filepathJoin URLString isFolderError
                  isForce isFake isRemove totals u mj)) =
  negb isFake && lacksTarget u.
Proof.
  destruct totals as [tb to].
  destruct u as [sa sc ta tc n z [e|]].
  - rewrite (startMirrorEntry_error tb to (mkURLs sa sc ta tc n z (Some e))
               e mj eq_refl).
    unfold lacksTarget. cbn [Error fst isPanic]. rewrite andb_false_r.
    reflexivity.
  - destruct sc as [sc|], tc as [tc|];
      destruct isFake, isRemove, isForce; reflexivity.
Qed.

Lemma startMirrorFrom_panics items :
  forall totals mj,
    isPanic (fst (startMirrorFrom removeSingle uploadSourceToTargetURL
                    filepathJoin URLString isFolderError
                    isForce isFake isRemove totals items mj)) =
    negb isFake && existsb lacksTarget items.
Proof.
  induction items as [| u rest IH]; intros totals mj.
  - simpl. rewrite andb_false_r. reflexivity.
  - rewrite startMirrorFrom_cons. unfold bind.
    pose proof (startMirrorEntry_panics totals u mj) as Hu.
    destruct (startMirrorEntry removeSingle uploadSourceToTargetURL
                filepathJoin URLString isFolderError isForce isFake isRemove
                totals u mj) as [[r|] mj1]; cbn [fst isPanic] in Hu.
    + rewrite IH. cbn [existsb].
      destruct (negb isFake); [| reflexivity].
      cbn [andb] in *. rewrite <- Hu. reflexivity.
    + cbn [fst isPanic existsb].
      destruct (negb isFake); [| discriminate].
      cbn [andb] in *. rewrite <- Hu. reflexivity.
Qed.

(** X23: [startMirror] dereferences a nil pointer exactly when fake is unset
    and one of its items comes without an error, with a source and without
    the target [doMirror] reads; on any other items it goes through all of
    them, whatever the remove and force flags and however uploads and
    removals turn out. *)
Theorem X23_startMirror_panics_iff items mj :
  isPanic (fst (startMirror removeSingle uploadSourceToTargetURL filepathJoin
                  URLString isFolderError isForce isFake isRemove items mj)) =
  negb isFake && existsb lacksTarget items.
Proof. unfold startMirror. apply startMirrorFrom_panics. Qed.

(** *** The status goroutine *)

Lemma statusEntry_lines u mj :
  statusEntry filepathJoin URLString u mj =
  if isErrorOnly u then (Panic, mj)
  else (Ok tt,
        mkJob (TotalObjects mj) (TotalBytes mj) (statusTotal mj)
              (watcherRunning mj)
              (statusLines filepathJoin URLString u ++ log mj)%list).
Proof.
  destruct mj as [a b c d l].
  destruct u as [sa [sc|] ta [tc|] n z [e|]]; reflexivity.
Qed.

Lemma statusLines_counts u :
  List.length (filter isUserError (statusLines filepathJoin URLString u)) =
  (if hasError u && negb (isErrorOnly u) then 1 else 0)%nat /\
  List.length (filter isRmMsg (statusLines filepathJoin URLString u)) =
  (if isDeleteOnly u then 1 else 0)%nat.
Proof.
  destruct u as [sa [sc|] ta [tc|] n z [e|]]; split; reflexivity.
Qed.

Lemma startStatus_cons u rest :
  startStatus filepathJoin URLString (u :: rest) =
  bind (statusEntry filepathJoin URLString u)
       (fun _ => startStatus filepathJoin URLString rest).
Proof. reflexivity. Qed.

Lemma startStatus_counts items :
  forall mj,
    let r := startStatus filepathJoin URLString items mj in
    (fst r = Ok tt <-> forallb (fun u => negb (isErrorOnly u)) items = true) /\
    (fst r = Ok tt ->
     List.length (userErrors (log (snd r))) =
     (List.length (filter hasError items) + List.length (userErrors (log mj)))%nat /\
     List.length (filter isRmMsg (log (snd r))) =
     (List.length (filter isDeleteOnly items) +
      List.length (filter isRmMsg (log mj)))%nat).
Proof.
  induction items as [| u rest IH]; intro mj.
  - simpl. split; [split; reflexivity | intros _; split; reflexivity].
  - cbv zeta. rewrite startStatus_cons. unfold bind.
    rewrite statusEntry_lines.
    destruct (isErrorOnly u) eqn:Hu.
    + simpl. rewrite Hu. simpl.
      split; [split; discriminate | discriminate].
    + match goal with
      | |- context [startStatus _ _ rest ?q] =>
        destruct (IH q) as [IHok IHcount]
      end.
      cbv zeta in IHok, IHcount. simpl forallb. rewrite Hu. simpl negb.
      rewrite andb_true_l.
      split; [exact IHok |].
      intro Hok. destruct (IHcount Hok) as [E1 E2].
      rewrite E1, E2. simpl log. unfold userErrors.
      rewrite !filter_app, !length_app.
      destruct (statusLines_counts u) as [C1 C2]. rewrite C1, C2, Hu.
      simpl filter.
      rewrite andb_true_r.
      destruct (hasError u), (isDeleteOnly u); simpl; lia.
Qed.

(** X9: the status goroutine panics exactly when it receives an item that
    is an error alone (no source and no target to name in the message);
    otherwise it shows one failure for each item that carries an error and
    one removal message for each item with a target and no source, the ones
    whose removal failed included. *)
Theorem X9_startStatus_output items mj :
  let r := startStatus filepathJoin URLString items mj in
  (fst r = Ok tt <-> forallb (fun u => negb (isErrorOnly u)) items = true) /\
  (fst r = Ok tt ->
   List.length (userErrors (log (snd r))) =
   (List.length (filter hasError items) + List.length (userErrors (log mj)))%nat /\
   List.length (filter isRmMsg (log (snd r))) =
   (List.length (filter isDeleteOnly items) +
    List.length (filter isRmMsg (log mj)))%nat).
Proof. apply startStatus_counts. Qed.

(** *** The watcher *)

(** X10: without force, a [Create] event whose target already exists is
    skipped, with a notified size or, once the source has been stat-ed,
    without: nothing is sent to the status channel, nothing is transferred
    and the total of the status bar stays as it is. *)
Theorem X10_watch_does_not_overwrite event mj :
  evType event = EventCreate ->
  newClient (targetPath mustExpandAlias filepathAbs urlJoinPath
               sourceURL targetURL event) = None ->
  (forall l, exists c,
      clientStat l (targetPath mustExpandAlias filepathAbs urlJoinPath
                      sourceURL targetURL event) = inr c) ->
  (evSize event = 0%Z ->
   newClient (aliasedPath mustExpandAlias filepathAbs stringsReplace
                sourceURL event) = None /\
   exists c,
     clientStat (log mj)
                (aliasedPath mustExpandAlias filepathAbs stringsReplace
                   sourceURL event) = inr c) ->
  let r := watchEvent newClient clientStat removeSingle
             uploadSourceToTargetURL mustExpandAlias filepathAbs filepathJoin
             urlJoinPath newClientURL URLString stringsReplace
             false isFake isRemove sourceURL targetURL event mj in
  fst r = Ok Continue /\
  statusSent (log (snd r)) = statusSent (log mj) /\
  transfers (log (snd r)) = transfers (log mj) /\
  statusTotal (snd r) = statusTotal mj.
Proof.
  intros Ht Hc Hexists Hzero. cbv zeta. unfold watchEvent. rewrite Ht.
  destruct (evSize event =? 0)%Z eqn:Hs.
  - apply Z.eqb_eq in Hs. destruct (Hzero Hs) as [Hca [c Hst]].
    rewrite Hca. unfold bind, Stat_, getJob, getState, emit, ret. simpl.
    rewrite Hst, Hc. simpl.
    match goal with
    | |- context [clientStat ?l ?p] => destruct (Hexists l) as [c' Hc']
    end.
    rewrite Hc'. simpl. repeat split; reflexivity.
  - simpl. rewrite Hc. unfold bind, Stat_, getJob, getState, emit, ret. simpl.
    destruct (Hexists (log mj)) as [c' Hc']. rewrite Hc'. simpl.
    repeat split; reflexivity.
Qed.

Lemma keeps_running_watchEvent event :
  keeps watcherRunning
    (watchEvent newClient clientStat removeSingle uploadSourceToTargetURL
       mustExpandAlias filepathAbs filepathJoin urlJoinPath newClientURL
       URLString stringsReplace isForce isFake isRemove
       sourceURL targetURL event).
Proof.
  assert (Hset : forall n, keeps watcherRunning (setStatusTotal n))
    by (intros n mj; reflexivity).
  assert (Hq : forall u size,
             keeps watcherRunning
               (queueCopy uploadSourceToTargetURL filepathJoin URLString
                  isFake u size)).
  { intros u size. unfold queueCopy.
    apply keeps_bind; [apply keeps_getJob | intro mj].
    apply keeps_bind; [apply Hset | intros _].
    apply keeps_mirrorToStatus. exact watcherRunning_log. }
  unfold watchEvent, send.
  repeat first
    [ apply Hq
    | apply keeps_Stat; exact watcherRunning_log
    | apply keeps_doRemove; exact watcherRunning_log
    | apply keeps_ret
    | apply keeps_getJob
    | apply keeps_emit; exact watcherRunning_log
    | apply keeps_bind; [ | intro ]
    | match goal with
      | |- keeps _ (match ?x with _ => _ end) => destruct x
      end ].
Qed.

(** X11: an [APINotImplemented] error of the watcher ends [watchMirror] at
    once, with [watcherRunning] cleared and nothing shown to the user,
    whatever would have come next; nothing else ever changes
    [watcherRunning]. *)
Theorem X11_watcher_stops_only_when_unsupported :
  (forall e rest mj,
      probe.ToGoError e = probe.APINotImplemented ->
      watchMirror newClient clientStat removeSingle uploadSourceToTargetURL
        mustExpandAlias filepathAbs filepathJoin urlJoinPath newClientURL
        URLString stringsReplace isForce isFake isRemove sourceURL targetURL
        (OnError e :: rest) mj =
      (Ok tt,
       mkJob (TotalObjects mj) (TotalBytes mj) (statusTotal mj) false (log mj))) /\
  (forall inputs mj,
      existsb isAPINotImplemented inputs = false ->
      watcherRunning
        (snd (watchMirror newClient clientStat removeSingle
                uploadSourceToTargetURL mustExpandAlias filepathAbs filepathJoin
                urlJoinPath newClientURL URLString stringsReplace
                isForce isFake isRemove sourceURL targetURL inputs mj)) =
      watcherRunning mj).
Proof.
  split.
  - intros e rest mj He. simpl. rewrite He. reflexivity.
  - induction inputs as [| i rest IH]; intros mj Hnone; simpl in *.
    + reflexivity.
    + apply orb_false_iff in Hnone. destruct Hnone as [Hi Hrest].
      destruct i as [event | e |].
      * unfold bind.
        pose proof (keeps_running_watchEvent event mj) as Hk.
        destruct (watchEvent newClient clientStat removeSingle
                    uploadSourceToTargetURL mustExpandAlias filepathAbs
                    filepathJoin urlJoinPath newClientURL URLString
                    stringsReplace isForce isFake isRemove sourceURL targetURL
                    event mj) as [[[|]|] mj1]; simpl in *.
        -- rewrite (IH mj1 Hrest). exact Hk.
        -- exact Hk.
        -- exact Hk.
      * simpl in Hi.
        destruct (probe.ToGoError e); try discriminate;
          unfold bind, emit; simpl; rewrite IH by exact Hrest; reflexivity.
      * reflexivity.
Qed.

End EngineFurther.

(** ** The session-based engine, further *)
Section LegacyFurther.

Import Legacy.

Section DoMirror.

Variables (quiet json : bool).
Variable getSource : string -> Z * option probe.Error.
Variable putTargets : list string -> Z -> option probe.Error.

(** X13: on the progress reader the session sets up, [doMirror] of an item
    with a source never panics, whatever the quiet and JSON flags and
    however get and put turn out: its type assertions always meet the type
    the flags chose. *)
Theorem X13_doMirror_never_panics sc tcs e0 l :
  fst (doMirror quiet json getSource putTargets (mkMirrorURLs (Some sc) tcs e0)
         (newProgressReader quiet json) l) = Ok tt.
Proof.
  unfold doMirror, doMirrorBody, newProgressReader.
  destruct e0 as [e|]; [reflexivity |].
  destruct quiet, json;
    cbv [bind ret deref emit Trace assertBarSend assertAccounter
         Error SourceContent TargetContents negb andb orb];
    destruct (getSource (Name sc)) as [len [ge|]]; try reflexivity;
    destruct (putTargets (map Name tcs) len); reflexivity.
Qed.

(** X14: every [doMirror] of an item with a source sends exactly one status:
    the item with the error it arrived with, else the error of the get,
    else the error of the put, else no error; and the put is attempted
    only when the item arrived without an error and the get succeeded. *)
Theorem X14_doMirror_sends_one_status sc tcs e0 :
  let sURLs := mkMirrorURLs (Some sc) tcs e0 in
  let out := snd (doMirror quiet json getSource putTargets sURLs
                    (newProgressReader quiet json) []) in
  statusSent out =
  [withError sURLs
     match e0 with
     | Some e => Some e
     | None =>
       match snd (getSource (Name sc)) with
       | Some e => Some e
       | None => putTargets (map Name tcs) (fst (getSource (Name sc)))
       end
     end] /\
  existsb isPutTargets out =
  match e0, snd (getSource (Name sc)) with
  | None, None => true
  | _, _ => false
  end.
Proof.
  cbv zeta. unfold doMirror, doMirrorBody, newProgressReader.
  destruct e0 as [e|]; [split; reflexivity |].
  destruct quiet, json;
    cbv [bind ret deref emit Trace assertBarSend assertAccounter
         Error SourceContent TargetContents negb andb orb];
    destruct (getSource (Name sc)) as [len [ge|]]; try (split; reflexivity);
    cbn [fst snd];
    destruct (putTargets (map Name tcs) len); split; reflexivity.
Qed.

End DoMirror.

Section PrepareFurther.

Variables (globalQuietFlag globalJSONFlag : bool).
Variable isEmpty : mirrorURLs -> bool.
Variable marshalFails : mirrorURLs -> bool.

Lemma prepareLoop_completes inputs :
  forall tb to dfp p,
    forallb (keepsPreparing isEmpty marshalFails) inputs = true ->
    wrap64 tb = tb -> wrap64 to = to ->
    let p' := prepareLoop globalQuietFlag globalJSONFlag isEmpty marshalFails
                inputs tb to dfp p in
    state p' = state p /\
    Data (session p') = (dfp ++ recorded isEmpty inputs)%list /\
    TotalBytes (Header (session p')) =
    wrap64 (tb + totalSize (recorded isEmpty inputs)) /\
    TotalObjects (Header (session p')) =
    wrap64 (to + Z.of_nat (List.length (recorded isEmpty inputs))) /\
    LastCopied (Header (session p')) = LastCopied (Header (session p)) /\
    CommandArgs (Header (session p')) = CommandArgs (Header (session p)).
Proof.
  induction inputs as [| i rest IH]; intros tb to dfp p Hkeep Htb Hto.
  - simpl. rewrite app_nil_r, !Z.add_0_r, Htb, Hto. repeat split; reflexivity.
  - simpl in Hkeep. apply andb_prop in Hkeep. destruct Hkeep as [Hi Hkeep].
    destruct i as [sURLs |]; [| discriminate]. simpl in Hi.
    cbv zeta. simpl prepareLoop. unfold recorded. simpl flat_map.
    fold (recorded isEmpty rest).
    destruct (Error sURLs) as [e|].
    + simpl app.
      match goal with
      | |- context [prepareLoop _ _ _ _ rest tb to dfp ?q] =>
        destruct (IH tb to dfp q Hkeep Htb Hto) as (H1 & H2 & H3 & H4 & H5 & H6)
      end.
      simpl in H1, H5, H6.
      rewrite state_eraseline in H1. rewrite session_eraseline in H5, H6.
      repeat split; assumption.
    + destruct (isEmpty sURLs).
      * simpl app. exact (IH tb to dfp p Hkeep Htb Hto).
      * simpl in Hi. destruct (marshalFails sURLs); [discriminate |].
        destruct (SourceContent sURLs) as [sc|] eqn:Hsc; [| discriminate].
        match goal with
        | |- context [prepareLoop _ _ _ _ rest ?b ?o ?dd ?q] =>
          destruct (IH b o dd q Hkeep (wrap64_idem _) (wrap64_idem _))
            as (H1 & H2 & H3 & H4 & H5 & H6)
        end.
        assert (Hq : forall q,
                   state (if negb globalQuietFlag && negb globalJSONFlag
                          then show (UpdateBar (Name sc)) q else q) = state q /\
                   session (if negb globalQuietFlag && negb globalJSONFlag
                            then show (UpdateBar (Name sc)) q else q) = session q)
          by (intro q; destruct (negb globalQuietFlag && negb globalJSONFlag);
              split; reflexivity).
        destruct (Hq p) as [Hq1 Hq2].
        rewrite Hq1 in H1. rewrite Hq2 in H5, H6.
        rewrite H2, H3, H4. unfold add64. rewrite !wrap64_add_l.
        simpl app. simpl List.length. simpl totalSize.
        unfold sizeOf at 1. rewrite Hsc.
        rewrite <- app_assoc. simpl app.
        repeat split; try assumption; f_equal; try ring.
        rewrite Nat2Z.inj_succ. ring.
Qed.

(** X15: when the URL channel closes without an interrupt, a marshalling
    failure or a panic, [doPrepareMirrorURLs] leaves a session whose data
    are the items that came without an error and were not empty, in the
    order of arrival, whose object total is their number and byte total the
    sum of their sizes (in [int64] arithmetic), and whose marker and
    arguments are untouched. *)
Theorem X15_prepare_records_what_it_counts inputs p :
  forallb (keepsPreparing isEmpty marshalFails) inputs = true ->
  let p' := doPrepareMirrorURLs globalQuietFlag globalJSONFlag isEmpty
              marshalFails inputs p in
  state p' = state p /\
  Data (session p') = recorded isEmpty inputs /\
  TotalBytes (Header (session p')) = wrap64 (totalSize (recorded isEmpty inputs)) /\
  TotalObjects (Header (session p')) =
  wrap64 (Z.of_nat (List.length (recorded isEmpty inputs))) /\
  LastCopied (Header (session p')) = LastCopied (Header (session p)) /\
  CommandArgs (Header (session p')) = CommandArgs (Header (session p)).
Proof.
  intro Hkeep. unfold doPrepareMirrorURLs.
  exact (prepareLoop_completes inputs 0%Z 0%Z [] p Hkeep eq_refl eq_refl).
Qed.

End PrepareFurther.

Section GateFurther.

Variables (globalQuietFlag globalJSONFlag globalDebugFlag : bool).
Variable numCPU : Z.
Variable lastCopied : string.

Lemma mirrorQueueCap_pos : (1 <= mirrorQueueCap numCPU)%nat.
Proof. unfold mirrorQueueCap. lia. Qed.

Lemma workers_idle_or_busy (ws : list (list effect)) :
  (forall w, In w ws -> w = []) \/
  exists ws1 e w ws2, ws = (ws1 ++ (e :: w) :: ws2)%list.
Proof.
  induction ws as [| w ws IH].
  - left. intros w [].
  - destruct w as [| e w].
    + destruct IH as [Hidle | (ws1 & e & w & ws2 & Heq)].
      * left. intros w [Hw | Hw]; [symmetry; exact Hw | exact (Hidle w Hw)].
      * right. exists ([] :: ws1), e, w, ws2. rewrite Heq. reflexivity.
    + right. exists [], e, w, ws. reflexivity.
Qed.

Lemma idle_workers_release_nothing (ws : list (list effect)) :
  (forall w, In w ws -> w = []) -> list_sum (map releases ws) = 0%nat.
Proof.
  induction ws as [| w ws IH]; intro Hidle; simpl; [reflexivity |].
  rewrite (Hidle w (or_introl eq_refl)). simpl.
  apply IH. intros w' Hw'. apply Hidle. right. exact Hw'.
Qed.

(** A worker with something left to do can always take its next step. *)
Lemma busy_worker_steps pend c q ws1 e w ws2 :
  admitted numCPU (mkScheduler pend c q (ws1 ++ (e :: w) :: ws2)) ->
  exists s',
    step globalQuietFlag globalJSONFlag globalDebugFlag numCPU lastCopied
      (mkScheduler pend c q (ws1 ++ (e :: w) :: ws2)) s'.
Proof.
  intros (Hsum & _ & _). simpl in Hsum.
  destruct (isQueueRelease e) eqn:He.
  - destruct e; try discriminate.
    rewrite list_sum_releases_app, releases_release in Hsum.
    destruct q as [| q]; [lia |].
    eexists. apply step_release.
  - eexists. apply step_effect. exact He.
Qed.

(** X16: the admission gate never blocks the scheduler for good: in every
    state it can reach, either all lines are read and every worker has
    finished, or the loop panics on its next line (the line has no source,
    or it was already copied and quiet is set with JSON and debug unset, so
    that [doMirrorFake] fails its type assertion), or some goroutine can
    take a step; and the gate admits at least one worker whatever the
    number of CPUs. *)
Theorem X16_scheduler_never_deadlocks lines s :
  reachable globalQuietFlag globalJSONFlag globalDebugFlag numCPU lastCopied
    lines s ->
  (1 <= mirrorQueueCap numCPU)%nat /\
  ((pending s = [] /\ forall w, In w (workers s) -> w = []) \/
   (exists u rest, pending s = u :: rest /\ SourceContent u = None) \/
   (exists u rest sc c',
       pending s = u :: rest /\ SourceContent u = Some sc /\
       isCopied lastCopied (copied s) (Name sc) = (true, c') /\
       globalQuietFlag && negb globalJSONFlag && negb globalDebugFlag = true /\
       forall l,
         doMirrorFake globalJSONFlag globalDebugFlag u
           (newProgressReader globalQuietFlag globalJSONFlag) l = (Panic, l)) \/
   (exists s',
       step globalQuietFlag globalJSONFlag globalDebugFlag numCPU lastCopied
         s s')).
Proof.
  intro Hreach. split; [apply mirrorQueueCap_pos |].
  pose proof (reachable_admitted globalQuietFlag globalJSONFlag
                globalDebugFlag numCPU lastCopied lines s Hreach) as Hadm.
  destruct s as [pend c q ws]. simpl.
  destruct pend as [| u rest].
  - destruct (workers_idle_or_busy ws) as [Hidle | (ws1 & e & w & ws2 & Heq)].
    + left. split; [reflexivity | exact Hidle].
    + right. right. right. subst ws. apply busy_worker_steps. exact Hadm.
  - right. destruct (SourceContent u) as [sc|] eqn:Hsc.
    + right.
      destruct (isCopied lastCopied c (Name sc)) as [[|] c'] eqn:Hcop.
      * destruct (globalQuietFlag && negb globalJSONFlag && negb globalDebugFlag)
          eqn:Hflags.
        -- left. exists u, rest, sc, c'.
           repeat split; try assumption; try reflexivity.
           intro l.
           destruct globalQuietFlag, globalJSONFlag, globalDebugFlag;
             try discriminate.
           reflexivity.
        -- right. eexists. eapply step_fake; [eassumption | eassumption |].
           rewrite (doMirrorFake_runs _ _ _ u sc [] Hflags Hsc). reflexivity.
      * right.
        destruct (Nat.ltb q (mirrorQueueCap numCPU)) eqn:Hq.
        -- apply Nat.ltb_lt in Hq. eexists.
           eapply (step_spawn globalQuietFlag globalJSONFlag globalDebugFlag
                     numCPU lastCopied
                     u sc rest c q ws c' sourceOk targetsOk); eassumption.
        -- apply Nat.ltb_ge in Hq.
           destruct (workers_idle_or_busy ws)
             as [Hidle | (ws1 & e & w & ws2 & Heq)].
           ++ destruct Hadm as (Hsum & _ & _). simpl in Hsum.
              rewrite (idle_workers_release_nothing ws Hidle) in Hsum.
              pose proof mirrorQueueCap_pos. lia.
           ++ subst ws. apply busy_worker_steps. exact Hadm.
    + left. exists u, rest. split; [reflexivity | exact Hsc].
Qed.

End GateFurther.

End LegacyFurther.

(** ** The progress bar *)
Section BarFurther.

Import Bar.







Section Loop.

Variable total : Z.
Variable GetWidth : Z.

Lemma barLoop_discipline msgs :
  forall st,
    let ops := fst (fst (barLoop total GetWidth msgs st)) in
    (List.length (filter isStart ops) <=
     (if (total >? 0)%Z && negb (started st) then 1 else 0))%nat /\
    (List.length (filter isBarFinish ops) <=
     (if started st then 1 else List.length (filter isStart ops)))%nat /\
    (snd (barLoop total GetWidth msgs st) = Finished ->
     exists pre, ops = (pre ++ [FinishSignal])%list).
Proof.
  induction msgs as [| m rest IH]; intro st; cbv zeta.
  - simpl. repeat split; try lia; try (destruct (started st); simpl; lia).
    discriminate.
  - destruct m as [n | | n | n | c]; simpl.
    + destruct st as [sd tbr]. simpl.
      destruct (total >? 0)%Z eqn:Ht; destruct sd; destruct (n >? 0)%Z eqn:Hn;
        simpl;
        match goal with
        | |- context [barLoop total GetWidth rest ?q] =>
          specialize (IH q); cbv zeta in IH;
          destruct (barLoop total GetWidth rest q) as [[ops st'] e]
        end;
        simpl in *; rewrite ?Ht in IH; simpl in IH;
        destruct IH as (I1 & I2 & I3);
        (repeat split;
         [ lia | lia
         | intro He; destruct (I3 He) as [pre Hpre]; rewrite Hpre;
           eexists; rewrite ?app_comm_cons; reflexivity ]).
    + repeat split.
      * rewrite filter_app. simpl.
        destruct (started st); simpl; destruct (_ && _); simpl; lia.
      * destruct (started st); simpl; lia.
      * intros _. exists (if started st then [BarFinish] else []). reflexivity.
    + specialize (IH st). cbv zeta in IH.
      destruct (barLoop total GetWidth rest st) as [[ops st'] e]. simpl in *.
      destruct IH as (I1 & I2 & I3).
      rewrite !filter_app, !length_app.
      destruct (totalBytesRead st >? n)%Z; simpl;
        (repeat split; [exact I1 | exact I2 |]);
        intro He; destruct (I3 He) as [pre Hpre]; rewrite Hpre.
      * exists (Set64 (sub64 (totalBytesRead st) n) :: pre). reflexivity.
      * exists pre. reflexivity.
    + specialize (IH st). cbv zeta in IH.
      destruct (barLoop total GetWidth rest st) as [[ops st'] e]. simpl in *.
      destruct IH as (I1 & I2 & I3).
      rewrite !filter_app, !length_app.
      destruct (n >? 0)%Z; simpl;
        (repeat split; [exact I1 | exact I2 |]);
        intro He; destruct (I3 He) as [pre Hpre]; rewrite Hpre.
      * exists (Add64 n :: pre). reflexivity.
      * exists pre. reflexivity.
    + destruct (fixateBarCaption c (getFixedWidth GetWidth 18)) as [caption|].
      * specialize (IH st). cbv zeta in IH.
        destruct (barLoop total GetWidth rest st) as [[ops st'] e]. simpl in *.
        destruct IH as (I1 & I2 & I3).
        repeat split; [exact I1 | exact I2 |].
        intro He. destruct (I3 He) as [pre Hpre]. rewrite Hpre.
        exists (Prefix caption :: pre). reflexivity.
      * simpl. repeat split; try lia;
          try (destruct (started st); simpl; lia);
          try (destruct (_ && _); lia).
        discriminate.
Qed.

(** X19: whatever messages arrive, the goroutine behind the progress bar
    starts the bar at most once and never for a total of zero or less,
    finishes it only when it has started it, and after handling the finish
    message does nothing but signal [finishCh]. *)
Theorem X19_bar_started_once_finished_if_started msgs :
  let run := barLoop total GetWidth msgs (mkLoop false 0) in
  let ops := fst (fst run) in
  (List.length (filter isStart ops) <= 1)%nat /\
  ((total <= 0)%Z ->
   filter isStart ops = [] /\ filter isBarFinish ops = []) /\
  (List.length (filter isBarFinish ops) <= List.length (filter isStart ops))%nat /\
  (snd run = Finished -> exists pre, ops = (pre ++ [FinishSignal])%list).
Proof.
  cbv zeta.
  destruct (barLoop_discipline msgs (mkLoop false 0)) as (H1 & H2 & H3).
  cbv zeta in H1, H2, H3. simpl in H1, H2.
  rewrite andb_true_r in H1.
  split; [| split; [| split]].
  - destruct (total >? 0)%Z; lia.
  - intro Ht. assert (Hz : (total >? 0)%Z = false)
      by (rewrite Z.gtb_ltb; apply Z.ltb_ge; lia).
    rewrite Hz in H1.
    assert (Hs : filter isStart
                   (fst (fst (barLoop total GetWidth msgs (mkLoop false 0)))) = [])
      by (apply length_zero_iff_nil; lia).
    split; [exact Hs |]. rewrite Hs in H2. simpl in H2.
    apply length_zero_iff_nil. lia.
  - exact H2.
  - exact H3.
Qed.

Lemma reads_agree ns :
  forall b st,
    Forall (fun n => (0 <= n)%Z) ns ->
    transferred b = totalBytesRead st ->
    wrap64 (transferred b) = transferred b ->
    transferred (fst (reads b ns)) =
    totalBytesRead (snd (fst (barLoop total GetWidth (snd (reads b ns)) st))).
Proof.
  induction ns as [| n rest IH]; intros b st Hpos Heq Hr.
  - simpl. exact Heq.
  - inversion Hpos as [| x xs Hn Hrest]; subst.
    cbn [reads Progress].
    pose (b1 := mkBarSend (barTotal b) (add64 (transferred b) n)).
    fold b1. destruct (reads b1 rest) as [b2 ms] eqn:Hreads.
    cbn [fst snd barLoop].
    match goal with
    | |- context [barLoop total GetWidth ms ?q] =>
      assert (H2 : transferred b1 = totalBytesRead q)
    end.
    { subst b1. simpl.
      destruct ((total >? 0)%Z && negb (started st));
        destruct (n >? 0)%Z eqn:Hgt; simpl;
        try (rewrite Heq; reflexivity);
        rewrite Z.gtb_ltb in Hgt; apply Z.ltb_ge in Hgt;
        assert (n = 0%Z) by lia; subst n;
        unfold add64; rewrite Z.add_0_r, Hr; exact Heq. }
    match goal with
    | |- context [barLoop total GetWidth ms ?q] =>
      pose proof (IH b1 q Hrest H2 (wrap64_idem _)) as IH'
    end.
    rewrite Hreads in IH'. simpl in IH'.
    match goal with
    | |- context [barLoop total GetWidth ms ?q] =>
      destruct (barLoop total GetWidth ms q) as [[ops st'] e]
    end.
    exact IH'.
Qed.

(** X20: as long as every read reports a number of bytes that is not
    negative, the bytes [barSend] has counted as transferred and the bytes
    the goroutine of the bar has counted as read are the same. *)
Theorem X20_sender_and_bar_count_the_same ns barTotal0 :
  Forall (fun n => (0 <= n)%Z) ns ->
  let sent := reads (mkBarSend barTotal0 0) ns in
  let run := barLoop total GetWidth (snd sent) (mkLoop false 0) in
  transferred (fst sent) = totalBytesRead (snd (fst run)).
Proof.
  intro Hpos. cbv zeta.
  apply reads_agree; [exact Hpos | reflexivity | reflexivity].
Qed.

End Loop.

End BarFurther.

(** ** The global flags *)
Section GlobalsFurther.

Import Globals.

Lemma setAll_cons f calls g :
  setAll (f :: calls) g = setAll calls (setGlobals f g).
Proof. reflexivity. Qed.

(** X21: however often [setGlobals] is called, a global flag is set
    afterwards exactly when it was set before or one of the calls asked for
    it; no call ever clears a flag.  After at least one call, debug
    printing is on whenever the debug flag is. *)
Theorem X21_global_flags_accumulate calls :
  forall g,
    globalQuiet (setAll calls g) = globalQuiet g || existsb quiet calls /\
    globalDebug (setAll calls g) = globalDebug g || existsb debug calls /\
    globalJSON (setAll calls g) = globalJSON g || existsb json calls /\
    globalNoColor (setAll calls g) = globalNoColor g || existsb noColor calls /\
    globalInsecure (setAll calls g) = globalInsecure g || existsb insecure calls /\
    DebugPrint (setAll calls g) =
    DebugPrint g ||
    match calls with [] => false | _ => globalDebug (setAll calls g) end.
Proof.
  induction calls as [| f rest IH]; intro g.
  - simpl. rewrite !orb_false_r. repeat split; reflexivity.
  - rewrite setAll_cons.
    destruct (IH (setGlobals f g)) as (H1 & H2 & H3 & H4 & H5 & H6).
    rewrite H1, H2, H3, H4, H5, H6. simpl.
    rewrite !orb_assoc. repeat split; try reflexivity.
    destruct rest as [| f' rest'].
    + simpl. destruct (globalDebug g), (debug f), (DebugPrint g); reflexivity.
    + rewrite H2. simpl.
      destruct (globalDebug g), (debug f), (DebugPrint g), (debug f'),
        (existsb debug rest'); reflexivity.
Qed.

End GlobalsFurther.

(** ** The generator and [isEmpty] *)
Section Consumers.

Variable Separator : string -> string.
Variable expandAlias : string -> string * string.
Variable joinURL : string -> string -> string.
Variable newClientFromAlias : string -> string -> option probe.Error.
Variables (isForce isFake isRemove : bool).
Variables (sourceURL targetURL : string).

(** X22: on the items [deltaSourceTargets] sends, [isEmpty] is of use only
    after the error has been looked at: it panics on every item that
    carries an error, and on every other item it answers that the item is
    not empty. *)
Theorem X22_isEmpty_on_generated_items diffs :
  Forall (fun m =>
            match Delta.Error m with
            | Some _ => Delta.isEmpty m = Panic
            | None => Delta.isEmpty m = Ok false
            end)
    (Delta.sent (fst (Delta.deltaSourceTargets Separator expandAlias joinURL
                        newClientFromAlias isForce isFake isRemove
                        sourceURL targetURL diffs))).
Proof.
  eapply Forall_impl;
    [| apply (deltaSourceTargets_shapes Separator expandAlias joinURL
                newClientFromAlias isForce isFake isRemove
                sourceURL targetURL diffs)].
  intros [sa [sc|] ta [tc|] [e|]]; simpl; intro H;
    try discriminate; try reflexivity.
  unfold Delta.isEmpty. simpl. rewrite andb_false_r. reflexivity.
Qed.

End Consumers.

(** ** Concrete runs *)

Lemma X2_error_entry_does_not_stop_the_walk_witness :
  let e := probe.NewError (probe.OtherError "listing failed") in
  let a := Delta.mkDiff None Delta.differInFirst "src/a" "dst/a"
                        (Some (Delta.mkContent "src/a" 1)) in
  let bad := Delta.mkDiff (Some e) Delta.differInNone "" "" None in
  let b := Delta.mkDiff None Delta.differInFirst "src/b" "dst/b"
                        (Some (Delta.mkContent "src/b" 2)) in
  Delta.sent (fst (Delta.deltaLoop Delta.joinPath false false false
                     "" "src/" "" "dst/" [a; bad; b])) =
  [Delta.mkMirrorURLs "" (Some (Delta.mkContent "src/a" 1)) ""
                      (Some (Delta.mkContent "dst/a" 0)) None;
   Delta.errorURLs e;
   Delta.mkMirrorURLs "" (Some (Delta.mkContent "src/b" 2)) ""
                      (Some (Delta.mkContent "dst/b" 0)) None].
Proof.
  intros e a bad b.
  exact (proj1 (X2_error_entry_does_not_stop_the_walk Delta.joinPath
                  false false false "" "src/" "" "dst/" [a] bad [b] e
                  eq_refl eq_refl)).
Defined.

Lemma X3_client_failure_sends_one_error_witness :
  Delta.sent
    (fst (Delta.deltaSourceTargets Delta.slash Delta.noAlias Delta.joinPath
            Delta.clientFails true false true "src" "dst"
            [Delta.mkDiff None Delta.differInFirst "src/a" "dst/a"
                          (Some (Delta.mkContent "src/a" 1))])) =
  [Delta.errorURLs (probe.NewError (probe.OtherError "no client"))].
Proof.
  exact (proj1 (proj1 (X3_client_failure_sends_one_error Delta.slash
                         Delta.noAlias Delta.joinPath Delta.clientFails
                         true false true "src" "dst"
                         [Delta.mkDiff None Delta.differInFirst "src/a" "dst/a"
                                       (Some (Delta.mkContent "src/a" 1))])
                      (probe.NewError (probe.OtherError "no client")) eq_refl)).
Defined.

Lemma X5_withSeparator_ends_with_separator_witness :
  Delta.withSeparator Delta.slash "src/" = "src/".
Proof.
  exact (proj2 (X5_withSeparator_ends_with_separator Delta.slash "src/") eq_refl).
Defined.

Lemma X7_startMirror_totals_witness :
  let item name size :=
    Engine.mkURLs "" (Some (Engine.mkContent (Engine.mkURL ("src/" ++ name)) size))
                  "" (Some (Engine.mkContent (Engine.mkURL ("dst/" ++ name)) 0))
                  0 0 None in
  let bad :=
    Engine.mkURLs "" None "" None 0 0
                  (Some (probe.NewError (probe.OtherError "listing failed"))) in
  let r := Engine.startMirror Engine.removeOk Engine.uploadOk Engine.joinPath
             Engine.Path Engine.notFolder false true false
             [item "a" 10%Z; bad; item "b" 20%Z] Engine.emptyJob in
  Engine.TotalObjects (snd r) = 2%Z /\
  Engine.TotalBytes (snd r) = 30%Z.
Proof.
  intros item bad r.
  assert (Hrun : r = (Ok tt, snd r)) by (vm_compute; reflexivity).
  destruct (proj2 (X7_startMirror_totals Engine.removeOk Engine.uploadOk
                     Engine.joinPath Engine.Path Engine.notFolder
                     false true false
                     [item "a" 10%Z; bad; item "b" 20%Z] Engine.emptyJob (snd r)
                     Hrun) ltac:(discriminate)) as [H1 H2].
  vm_compute in H1, H2. vm_compute. split; [exact H1 | exact H2].
Defined.

Lemma X8_startMirror_reports_each_error_once_witness :
  let e := probe.NewError (probe.OtherError "listing failed") in
  let good :=
    Engine.mkURLs "" (Some (Engine.mkContent (Engine.mkURL "src/a") 10))
                  "" (Some (Engine.mkContent (Engine.mkURL "dst/a") 0))
                  0 0 None in
  let bad := Engine.mkURLs "" None "" None 0 0 (Some e) in
  let r := Engine.startMirror Engine.removeOk Engine.uploadOk Engine.joinPath
             Engine.Path Engine.notFolder false true false
             [good; bad] Engine.emptyJob in
  Engine.userErrors (Engine.log (snd r)) =
  [Engine.ErrorIf e "Unable to prepare URL for copying."].
Proof.
  intros e good bad r.
  exact (proj1 (X8_startMirror_reports_each_error_once Engine.removeOk
                  Engine.uploadOk Engine.joinPath Engine.Path Engine.notFolder
                  false true false [good; bad] Engine.emptyJob (snd r) eq_refl)).
Defined.

Lemma X9_startStatus_output_witness :
  let e := probe.NewError (probe.OtherError "access denied") in
  let copied :=
    Engine.mkURLs "" (Some (Engine.mkContent (Engine.mkURL "src/a") 10))
                  "" (Some (Engine.mkContent (Engine.mkURL "dst/a") 0))
                  1 10 None in
  let notRemoved :=
    Engine.mkURLs "" None "" (Some (Engine.mkContent (Engine.mkURL "dst/old") 0))
                  2 10 (Some e) in
  let r := Engine.startStatus Engine.joinPath Engine.Path
             [copied; notRemoved] Engine.emptyJob in
  List.length (Engine.userErrors (Engine.log (snd r))) = 1%nat /\
  List.length (filter Engine.isRmMsg (Engine.log (snd r))) = 1%nat.
Proof.
  intros e copied notRemoved r.
  exact (proj2 (X9_startStatus_output Engine.joinPath Engine.Path
                  [copied; notRemoved] Engine.emptyJob) eq_refl).
Defined.

Lemma X10_watch_does_not_overwrite_witness :
  let event := Engine.mkEvent "src/a.txt" Engine.EventCreate 0 in
  let r := Engine.watchEvent Engine.clientOk Engine.statExists Engine.removeOk
             Engine.uploadOk Engine.noAlias Engine.absSame Engine.joinPath
             Engine.joinPath Engine.mkURL Engine.Path Engine.replaceSame
             false false false "src/" "dst/" event Engine.emptyJob in
  fst r = Ok Engine.Continue /\
  Engine.statusSent (Engine.log (snd r)) = [] /\
  Engine.transfers (Engine.log (snd r)) = [] /\
  Engine.statusTotal (snd r) = 0%Z.
Proof.
  intros event r.
  exact (X10_watch_does_not_overwrite Engine.clientOk Engine.statExists
           Engine.removeOk Engine.uploadOk Engine.noAlias Engine.absSame
           Engine.joinPath Engine.joinPath Engine.mkURL Engine.Path
           Engine.replaceSame false false "src/" "dst/" event Engine.emptyJob
           eq_refl eq_refl
           (fun l => ex_intro _ _ eq_refl)
           (fun _ => conj eq_refl (ex_intro _ _ eq_refl))).
Defined.

Lemma X11_watcher_stops_only_when_unsupported_witness :
  let unsupported := probe.NewError probe.APINotImplemented in
  let other := probe.NewError (probe.OtherError "connection reset") in
  let ev := Engine.mkEvent "src/a.txt" Engine.EventCreate 5 in
  let run := Engine.watchMirror Engine.clientOk Engine.statExists
               Engine.removeOk Engine.uploadOk Engine.noAlias Engine.absSame
               Engine.joinPath Engine.joinPath Engine.mkURL Engine.Path
               Engine.replaceSame true false false "src/" "dst/" in
  run [Engine.OnError unsupported; Engine.OnEvent ev] Engine.emptyJob =
  (Ok tt, Engine.mkJob 0 0 0 false []) /\
  Engine.watcherRunning
    (snd (run [Engine.OnError other; Engine.OnEvent ev] Engine.emptyJob)) = true.
Proof.
  intros unsupported other ev run.
  destruct (X11_watcher_stops_only_when_unsupported Engine.clientOk
              Engine.statExists Engine.removeOk Engine.uploadOk Engine.noAlias
              Engine.absSame Engine.joinPath Engine.joinPath Engine.mkURL
              Engine.Path Engine.replaceSame true false false "src/" "dst/")
    as [Hstop Hkeep].
  split.
  - exact (Hstop unsupported [Engine.OnEvent ev] Engine.emptyJob eq_refl).
  - exact (Hkeep [Engine.OnError other; Engine.OnEvent ev] Engine.emptyJob
                 eq_refl).
Defined.


Lemma X15_prepare_records_what_it_counts_witness :
  let a := Legacy.file "a" 10 in
  let b := Legacy.file "b" 20 in
  let bad :=
    Legacy.mkMirrorURLs None []
      (Some (probe.NewError (probe.OtherError "listing failed"))) in
  let p' := Legacy.doPrepareMirrorURLs false false Legacy.never Legacy.never
              [Legacy.FromURLsCh a; Legacy.FromURLsCh bad; Legacy.FromURLsCh b]
              (Legacy.freshProcess ["src"; "dst"]) in
  Legacy.Data (Legacy.session p') = [a; b] /\
  Legacy.TotalBytes (Legacy.Header (Legacy.session p')) = 30%Z /\
  Legacy.TotalObjects (Legacy.Header (Legacy.session p')) = 2%Z.
Proof.
  intros a b bad p'.
  destruct (X15_prepare_records_what_it_counts false false Legacy.never
              Legacy.never
              [Legacy.FromURLsCh a; Legacy.FromURLsCh bad; Legacy.FromURLsCh b]
              (Legacy.freshProcess ["src"; "dst"]) eq_refl)
    as (_ & Hdata & Hbytes & Hobjects & _).
  split; [exact Hdata | split; [exact Hbytes | exact Hobjects]].
Defined.

Lemma X16_scheduler_never_deadlocks_witness :
  let a := Legacy.file "a" 10 in
  let s := Legacy.startScheduler [a] in
  (1 <= Legacy.mirrorQueueCap 1)%nat /\
  ((Legacy.pending s = [] /\ forall w, In w (Legacy.workers s) -> w = []) \/
   (exists u rest, Legacy.pending s = u :: rest /\
                   Legacy.SourceContent u = None) \/
   (exists u rest sc c',
       Legacy.pending s = u :: rest /\ Legacy.SourceContent u = Some sc /\
       Legacy.isCopied "a" (Legacy.copied s) (Legacy.Name sc) = (true, c') /\
       true && negb false && negb false = true /\
       forall l,
         Legacy.doMirrorFake false false u
           (Legacy.newProgressReader true false) l = (Panic, l)) \/
   (exists s', Legacy.step true false false 1 "a" s s')).
Proof.
  intros a s.
  exact (X16_scheduler_never_deadlocks true false false 1 "a" [a] s
           (Legacy.reach_start true false false 1 "a" [a])).
Defined.



Lemma X19_bar_started_once_finished_if_started_witness :
  let ops := fst (fst (Bar.barLoop 0 80
                         [Bar.pbBarProgress 5; Bar.pbBarFinish]
                         (Bar.mkLoop false 0))) in
  filter Bar.isStart ops = [] /\ filter Bar.isBarFinish ops = [].
Proof.
  intro ops.
  refine (proj1 (proj2 (X19_bar_started_once_finished_if_started 0 80
                          [Bar.pbBarProgress 5; Bar.pbBarFinish])) _).
  lia.
Defined.

Lemma X20_sender_and_bar_count_the_same_witness :
  let sent := Bar.reads (Bar.mkBarSend 10 0) [3; 0; 4]%Z in
  Bar.transferred (fst sent) =
  Bar.totalBytesRead
    (snd (fst (Bar.barLoop 10 80 (snd sent) (Bar.mkLoop false 0)))).
Proof.
  intro sent.
  refine (X20_sender_and_bar_count_the_same 10 80 [3; 0; 4]%Z 10 _).
  repeat constructor; lia.
Defined.
